(** * go-base: task-lifecycle runtime and random identifiers

    A shallow embedding of the Go sources:
    - [RandID]: package randid ([New], [Decode]) with the base64 URL
      alphabet it relies on;
    - [Liver]: the liveness registry and its watchdog scan;
    - [Orchestrator]: the bounded parallel batch [groupRun];
    - [TaskCore]: task construction, [Fire], [Reload], [Stop] and the
      goroutine loop, as an interleaving state machine.

    Integers of fixed width are [Z] with the wrap-around written out,
    bytes are [Z] in [0, 256), strings are [string], the registries are
    [gmap string _]. *)

From Stdlib Require Import ZArith Lia Ascii String.
From stdpp Require Import gmap strings list.

Local Open Scope Z_scope.

(** ** Fixed-width arithmetic *)

Definition is_byte (z : Z) : Prop := 0 <= z < 256.

(** Go conversions [uint32(x)], [uint64(x)] and [int64(x)]. *)
Definition uint32 (z : Z) : Z := z mod 2 ^ 32.
Definition uint64 (z : Z) : Z := z mod 2 ^ 64.
Definition int64 (z : Z) : Z := (z + 2 ^ 63) mod 2 ^ 64 - 2 ^ 63.

(** ** Slices *)

(** [copy(buf[lo:hi], bs)]: copies [min (hi - lo) (len bs)] elements. *)
Definition copy {A} (buf : list A) (lo hi : nat) (bs : list A) : list A :=
  let n := Nat.min (hi - lo)%nat (length bs) in
  take lo buf ++ take n bs ++ drop (lo + n)%nat buf.

Module RandID.

Definition seqInc : Z := 673.
Definition seqMax : Z := 0xFFFFFF.

(** [binary.LittleEndian.PutUint32(b, v)] writes these four bytes at the
    start of [b]. *)
Definition le_bytes32 (v : Z) : list Z :=
  [ Z.land v 0xFF;
    Z.land (Z.shiftr v 8) 0xFF;
    Z.land (Z.shiftr v 16) 0xFF;
    Z.land (Z.shiftr v 24) 0xFF ].

Definition PutUint32 (buf : list Z) (off : nat) (v : Z) : list Z :=
  copy buf off (off + 4)%nat (le_bytes32 v).

(** [binary.LittleEndian.Uint32(b)]. *)
Definition Uint32 (b : list Z) : Z :=
  Z.lor (Z.lor (Z.lor (nth 0 b 0) (Z.shiftl (nth 1 b 0) 8))
               (Z.shiftl (nth 2 b 0) 16))
        (Z.shiftl (nth 3 b 0) 24).

(** *** base64.URLEncoding *)

Definition encodeURL : string :=
  "ABCDEFGHIJKLMNOPQRSTUVWXYZabcdefghijklmnopqrstuvwxyz0123456789-_".

Definition padChar : ascii := "="%char.

Definition enc_char (v : Z) : ascii :=
  match String.get (Z.to_nat v) encodeURL with
  | Some c => c
  | None => padChar
  end.

Fixpoint index_of (c : ascii) (s : string) (i : Z) : option Z :=
  match s with
  | EmptyString => None
  | String d s' => if Ascii.eqb c d then Some i else index_of c s' (i + 1)
  end.

Definition dec_char (c : ascii) : option Z := index_of c encodeURL 0.

Definition enc_quantum (a b c : Z) : list ascii :=
  let v := Z.lor (Z.lor (Z.shiftl a 16) (Z.shiftl b 8)) c in
  [ enc_char (Z.land (Z.shiftr v 18) 0x3F);
    enc_char (Z.land (Z.shiftr v 12) 0x3F);
    enc_char (Z.land (Z.shiftr v 6) 0x3F);
    enc_char (Z.land v 0x3F) ].

(** [Encoding.Encode]: three bytes give four characters; a tail of one or
    two bytes is padded with [=]. *)
Fixpoint b64_encode (src : list Z) : list ascii :=
  match src with
  | a :: b :: c :: rest => enc_quantum a b c ++ b64_encode rest
  | [a; b] => take 3 (enc_quantum a b 0) ++ [padChar]
  | [a] => take 2 (enc_quantum a 0 0) ++ [padChar; padChar]
  | [] => []
  end.

Definition dec_value (q0 q1 q2 q3 : Z) : Z :=
  Z.lor (Z.lor (Z.lor (Z.shiftl q0 18) (Z.shiftl q1 12)) (Z.shiftl q2 6)) q3.

Definition dec_bytes (v : Z) : list Z :=
  [ Z.land (Z.shiftr v 16) 0xFF; Z.land (Z.shiftr v 8) 0xFF; Z.land v 0xFF ].

Definition is_newline (c : ascii) : bool :=
  Ascii.eqb c "010"%char || Ascii.eqb c "013"%char.

(** Decoding of the significant characters, four at a time; padding is
    accepted only in the last quantum. *)
Fixpoint b64_decode_quanta (s : list ascii) : option (list Z) :=
  match s with
  | [] => Some []
  | c0 :: c1 :: c2 :: c3 :: rest =>
      match dec_char c0, dec_char c1 with
      | Some q0, Some q1 =>
          match dec_char c2, dec_char c3 with
          | Some q2, Some q3 =>
              match b64_decode_quanta rest with
              | Some out => Some (dec_bytes (dec_value q0 q1 q2 q3) ++ out)
              | None => None
              end
          | Some q2, None =>
              if Ascii.eqb c3 padChar && bool_decide (rest = [])
              then Some (take 2 (dec_bytes (dec_value q0 q1 q2 0)))
              else None
          | None, _ =>
              if Ascii.eqb c2 padChar && Ascii.eqb c3 padChar
                 && bool_decide (rest = [])
              then Some (take 1 (dec_bytes (dec_value q0 q1 0 0)))
              else None
          end
      | _, _ => None
      end
  | _ => None
  end.

(** [Encoding.Decode]: line breaks are ignored. *)
Definition b64_decode (s : list ascii) : option (list Z) :=
  b64_decode_quanta (filter (fun c => is_newline c = false) s).

(** *** New *)

(** [src[i*2], src[6+i] = src[6+i], src[i*2]; src[i*2] ^= src[9]]. *)
Definition enc_step (src : list Z) (i : nat) : list Z :=
  let a := nth (i * 2)%nat src 0 in
  let b := nth (6 + i)%nat src 0 in
  let src := <[(i * 2)%nat := b]> src in
  let src := <[(6 + i)%nat := a]> src in
  <[(i * 2)%nat := Z.lxor (nth (i * 2)%nat src 0) (nth 9 src 0)]> src.

Definition enc_loop (src : list Z) : list Z :=
  fold_left enc_step (seq 0 6) src.

(** The twelve plain bytes before the loop: marker, three time bytes,
    three sequence bytes. *)
Definition plain (now seq' : Z) (marker : list Z) : list Z :=
  let src := replicate 12 0 in
  let dst := replicate 16 0 in
  let dst := PutUint32 dst 0 (uint32 now) in
  let dst := PutUint32 dst 3 seq' in
  let src := copy src 0 6 marker in
  copy src 6 12 dst.

(** [New()] at Unix time [now] with the sequence counter at [seq]:
    the identifier and the counter after [atomic.AddUint32]. *)
Definition New (now seq : Z) (marker : list Z) : string * Z :=
  let seq' := uint32 (seq + seqInc) in
  let src := enc_loop (plain now seq' marker) in
  let dst := b64_encode src in
  (string_of_list_ascii dst, seq').

(** *** Decode *)

(** [dst[i*2] ^= dst[9]; dst[i*2], dst[6+i] = dst[6+i], dst[i*2]]. *)
Definition dec_step (dst : list Z) (i : nat) : list Z :=
  let dst := <[(i * 2)%nat := Z.lxor (nth (i * 2)%nat dst 0) (nth 9 dst 0)]> dst in
  let a := nth (i * 2)%nat dst 0 in
  let b := nth (6 + i)%nat dst 0 in
  let dst := <[(i * 2)%nat := b]> dst in
  <[(6 + i)%nat := a]> dst.

Definition dec_loop (dst : list Z) : list Z :=
  fold_left dec_step (rev (seq 0 6)) dst.

(** The plain bytes [Decode] works on after its loop and [dst[9] = 0]. *)
Definition decoded_plain (bytes : list Z) : list Z :=
  let dst := copy (replicate 12 0) 0 12 bytes in
  <[9%nat := 0]> (dec_loop dst).

(** [Decode(id)] at Unix time [now]: [None] is the [(nil, time.Time{})]
    return; otherwise the IP bytes and the Unix seconds of the time. *)
Definition Decode (now : Z) (id : string) : option (list Z * Z) :=
  let src := list_ascii_of_string id in
  if negb (length src =? 16)%nat then None
  else match b64_decode src with
       | None => None
       | Some bytes =>
           let dst := decoded_plain bytes in
           let timestamp := uint64 (Uint32 (drop 6 dst)) in
           let timestamp :=
             Z.lor timestamp (Z.land (uint64 now) 0xFF000000) in
           Some (take 4 (drop 2 dst), int64 timestamp)
       end.

End RandID.


(** ** Time and contexts *)

(** Instants are readings of the monotonic clock in nanoseconds, so the
    difference of two instants is a [time.Duration] without saturation.
    A [time.Duration] is an [int64] count of nanoseconds. *)
Definition Second : Z := 1000000000.

(** [d * n] on [time.Duration]. *)
Definition Duration_mul (d n : Z) : Z := int64 (d * n).

(** [ctx.Err()] of a context that is done. *)
Inductive ctx_err := Canceled | DeadlineExceeded.

Global Instance ctx_err_eq_dec : EqDecision ctx_err.
Proof. solve_decision. Defined.

(** A context made by [context.WithCancel] or [context.WithTimeout]:
    its deadline, when it has one, and its error once it is done. *)
Record context := Context {
  deadline : option Z;
  err : option ctx_err
}.

(** [context.WithCancel(context.Background())]. *)
Definition WithCancel : context := Context None None.

(** [context.WithTimeout(context.Background(), d)] at instant [now]: a
    deadline that has already passed gives a context that is done. *)
Definition WithTimeout (now d : Z) : context :=
  Context (Some (now + d)) (if d <=? 0 then Some DeadlineExceeded else None).

(** Calling the [CancelFunc]: only the first end of a context counts. *)
Definition cancel (c : context) : context :=
  match err c with
  | Some _ => c
  | None => Context (deadline c) (Some Canceled)
  end.

(** The timer of the context fires: possible once the deadline is reached. *)
Definition expire (now : Z) (c : context) : option context :=
  match deadline c, err c with
  | Some dl, None =>
      if dl <=? now then Some (Context (deadline c) (Some DeadlineExceeded))
      else None
  | _, _ => None
  end.

Definition done (c : context) : bool := bool_decide (is_Some (err c)).

Module Liver.

(** [type live struct]. *)
Record live := Live { last : Z; timeout : Z }.

Global Instance live_eq_dec : EqDecision live.
Proof. solve_decision. Defined.

(** [liver.data]: a [sync.Map] from key to [*live]; [None] is a nil
    pointer. *)
Abbreviation data := (gmap string (option live)).

(** [liver.Register] at instant [now]. *)
Definition Register (now : Z) (key : string) (timeout : Z) (d : data) : data :=
  <[key := Some (Live now timeout)]> d.

(** [liver.Cancel]: the map after [LoadAndDelete], and whether the key was
    there (which of the two log lines is written). *)
Definition Cancel (key : string) (d : data) : data * bool :=
  (delete key d, bool_decide (is_Some (d !! key))).

(** The test of the scan: [lc != nil && lc.timeout < now.Sub(lc.last)]. *)
Definition died (now : Z) (v : option live) : bool :=
  match v with
  | Some lc => timeout lc <? now - last lc
  | None => false
  end.

(** [l.data.Range] in [liver.Schedule]: the entries are visited in some
    order; the first one that died is handed to [Fatal] and the visit
    stops. *)
Fixpoint scan (now : Z) (entries : list (string * option live))
  : option (string * option live) :=
  match entries with
  | [] => None
  | (key, v) :: rest => if died now v then Some (key, v) else scan now rest
  end.

(** [liver.Schedule] at instant [now]: the key and content logged by
    [Fatal], which ends the process, or [None] when the scan finds
    nothing. [order] is the order in which [Range] visits the map. *)
Definition Schedule (now : Z) (order : list (string * option live))
  : option (string * option live) := scan now order.

(** The orders in which [Range] may visit a map. *)
Definition visits (d : data) (order : list (string * option live)) : Prop :=
  order ≡ₚ map_to_list d.

End Liver.

Module Orchestrator.

(** A registered [func() error], described by the error it returns when it
    returns ([None] is [nil]). Whether and when it returns is left to the
    run. *)
Definition callback := option string.

Inductive log_entry :=
| Warn (key : string) (e : string)          (* "An error occured while group run" *)
| StatusError (key : string) (status : bool). (* "function statuses" *)

(** How [groupRun] ends: it returns (it has no result value), or
    [logrus.Panic] raises a panic. *)
Inductive outcome := Returned | Panicked.

Global Instance outcome_eq_dec : EqDecision outcome.
Proof. solve_decision. Defined.

(** One call of [groupRun]. *)
Record batch := Batch {
  running : gmap string callback;     (* goroutines that have not finished *)
  functionStatus : gmap string bool;
  wg : nat;
  now : Z;
  ctx : context;
  waited : bool;                      (* the goroutine of [wg.Wait] is done *)
  log : list log_entry;
  result : option outcome             (* [None]: blocked on [<-ctx.Done()] *)
}.


Inductive action :=
| Finish (key : string)   (* the goroutine of [key]: fn returns, to [wg.Done] *)
| WaitDone                (* [wg.Wait()] returns; [cancel()] *)
| Tick (dt : Z)           (* time passes *)
| Expire                  (* the timer of [ctx] fires *)
| Wake.                   (* [<-ctx.Done()] yields; the rest of groupRun *)

Definition alive (b : batch) : bool :=
  negb (bool_decide (result b = Some Panicked)).

Definition step (b : batch) (a : action) : option batch :=
  if negb (alive b) then None else
  match a with
  | Finish key =>
      match running b !! key with
      | Some fn =>
          Some {| running := delete key (running b);
                  functionStatus := <[key := true]> (functionStatus b);
                  wg := pred (wg b);
                  now := now b; ctx := ctx b; waited := waited b;
                  log := log b ++ match fn with
                                  | Some e => [Warn key e]
                                  | None => []
                                  end;
                  result := result b |}
      | None => None
      end
  | WaitDone =>
      if negb (waited b) && (wg b =? 0)%nat then
        Some {| running := running b; functionStatus := functionStatus b;
                wg := wg b; now := now b; ctx := cancel (ctx b);
                waited := true; log := log b; result := result b |}
      else None
  | Tick dt =>
      if 0 <=? dt then
        Some {| running := running b; functionStatus := functionStatus b;
                wg := wg b; now := now b + dt; ctx := ctx b;
                waited := waited b; log := log b; result := result b |}
      else None
  | Expire =>
      match expire (now b) (ctx b) with
      | Some c =>
          Some {| running := running b; functionStatus := functionStatus b;
                  wg := wg b; now := now b; ctx := c;
                  waited := waited b; log := log b; result := result b |}
      | None => None
      end
  | Wake =>
      match result b, err (ctx b) with
      | None, Some Canceled =>
          Some {| running := running b; functionStatus := functionStatus b;
                  wg := wg b; now := now b; ctx := ctx b;
                  waited := waited b; log := log b;
                  result := Some Returned |}
      | None, Some DeadlineExceeded =>
          Some {| running := running b; functionStatus := functionStatus b;
                  wg := wg b; now := now b; ctx := ctx b;
                  waited := waited b;
                  log := log b ++ ((fun kv => StatusError kv.1 kv.2)
                                     <$> map_to_list (functionStatus b));
                  result := Some Panicked |}
      | _, _ => None
      end
  end.

Fixpoint run (b : batch) (acts : list action) : option batch :=
  match acts with
  | [] => Some b
  | a :: rest => match step b a with
                 | Some b' => run b' rest
                 | None => None
                 end
  end.


End Orchestrator.

Module TaskCore.

(** ** Task data *)

Inductive taskType :=
| taskTypeOnetime
| taskTypeOnTCP
| taskTypeOnReload
| taskTypeOnChannel
| taskTypeOnInterval
| taskTypeOnFsChange
| taskTypeManual.

Global Instance taskType_eq_dec : EqDecision taskType.
Proof. solve_decision. Defined.

(** The [interface{}] values that [Trigger] and [Argument] hold. *)
Inductive value :=
| VNil                      (* nil *)
| VBool (b : bool)
| VString (s : string)
| VDuration (d : Z)         (* time.Duration *)
| VChan                     (* the trigger channel *)
| VListener                 (* the net.Listener made by net.Listen *)
| VWatcher (made : bool)    (* a *fsnotify.Watcher; [false]: a nil pointer *)
| VConn (c : Z)             (* an accepted net.Conn *)
| VEvent (e : Z)            (* a fsnotify.Event; 0 is the zero Event *)
| VData (v : Z).            (* any other value, as received from a channel *)

Global Instance value_eq_dec : EqDecision value.
Proof. solve_decision. Defined.

Inductive error :=
| ContextCanceled                 (* context.Canceled *)
| TaskerError (msg : string)      (* any other error of the Tasker *)
| FireDied                        (* "Task to fire has already died" *)
| StartDied                       (* "This task has already died" *)
| StopTimeout (id : string)       (* "Stop task timeout, task id: ..." *)
| ListenError                     (* the error of net.Listen *)
| WatcherError.                   (* the error of NewWatcher or Watcher.Add *)

Global Instance error_eq_dec : EqDecision error.
Proof. solve_decision. Defined.

(** [type TaskBase struct]; [Log] keeps only whether an entry was given. *)
Record TaskBase := MkTaskBase {
  tType : taskType;         (* the field taskType *)
  tb_id : string;           (* the field id *)
  Name : string;
  Log : option string;
  Trigger : value;
  Argument : value;
  Immediately : bool;
  Sleep : bool
}.

Definition set_Trigger (v : value) (w : TaskBase) : TaskBase :=
  {| tType := tType w; tb_id := tb_id w; Name := Name w; Log := Log w;
     Trigger := v; Argument := Argument w; Immediately := Immediately w;
     Sleep := Sleep w |}.

Definition set_Argument (v : value) (w : TaskBase) : TaskBase :=
  {| tType := tType w; tb_id := tb_id w; Name := Name w; Log := Log w;
     Trigger := Trigger w; Argument := v; Immediately := Immediately w;
     Sleep := Sleep w |}.

Definition set_Immediately (v : bool) (w : TaskBase) : TaskBase :=
  {| tType := tType w; tb_id := tb_id w; Name := Name w; Log := Log w;
     Trigger := Trigger w; Argument := Argument w; Immediately := v;
     Sleep := Sleep w |}.

Definition set_Sleep (v : bool) (w : TaskBase) : TaskBase :=
  {| tType := tType w; tb_id := tb_id w; Name := Name w; Log := Log w;
     Trigger := Trigger w; Argument := Argument w;
     Immediately := Immediately w; Sleep := v |}.

Definition set_Name (v : string) (w : TaskBase) : TaskBase :=
  {| tType := tType w; tb_id := tb_id w; Name := v; Log := Log w;
     Trigger := Trigger w; Argument := Argument w;
     Immediately := Immediately w; Sleep := Sleep w |}.

Definition set_Log (v : option string) (w : TaskBase) : TaskBase :=
  {| tType := tType w; tb_id := tb_id w; Name := Name w; Log := v;
     Trigger := Trigger w; Argument := Argument w;
     Immediately := Immediately w; Sleep := Sleep w |}.

Definition set_tb_id (v : string) (w : TaskBase) : TaskBase :=
  {| tType := tType w; tb_id := v; Name := Name w; Log := Log w;
     Trigger := Trigger w; Argument := Argument w;
     Immediately := Immediately w; Sleep := Sleep w |}.

(** A [TaskBase] literal that sets only the given fields. *)
Definition TaskBase_lit (ty : taskType) (argument : value) (imm : bool)
  : TaskBase :=
  {| tType := ty; tb_id := ""; Name := ""; Log := None; Trigger := VNil;
     Argument := argument; Immediately := imm; Sleep := false |}.

(** The variadic [args ...interface{}] of the constructors, by the case of
    the type switch in [newTaskBase] that they reach. *)
Inductive arg :=
| ArgBool (b : bool)
| ArgString (s : string)
| ArgDuration (d : Z)
| ArgLog (entry : string)       (* *logrus.Entry *)
| ArgChan                       (* a value of kind reflect.Chan *)
| ArgOther.                     (* anything else: ignored *)

Definition apply_arg (w : TaskBase) (a : arg) : TaskBase :=
  match a with
  | ArgBool b =>
      if decide (tType w = taskTypeOnInterval) then set_Argument (VBool b) w
      else set_Immediately b w
  | ArgString s => set_Name s w
  | ArgDuration d => set_Trigger (VDuration d) w
  | ArgLog entry => set_Log (Some entry) w
  | ArgChan => set_Trigger VChan w
  | ArgOther => w
  end.

(** [newTaskBase(w, args...)]; [uuid] is the string that [uuid.New()]
    gives. *)
Definition newTaskBase (w : TaskBase) (args : list arg) (uuid : string)
  : TaskBase :=
  let w := fold_left apply_arg args w in
  let w := if decide (tb_id w = "") then set_tb_id uuid w else w in
  let w := if decide (Name w = "")
           then set_Name ("anonymous/" +:+ tb_id w) w else w in
  if decide (Log w = None) then set_Log (Some (Name w)) w else w.

(** ** Events *)

(** The context handed to [Schedule]: [t.life], or for an interval task
    [context.WithTimeout(t.life, d)]. *)
Inductive sched_ctx := LifeCtx | LifeTimeout (d : Z).

Inductive call := CFire | CReload | CStop | CStart | CNewTask.

Inductive event :=
| EvReload                              (* Tasker.Reload runs *)
| EvSchedule (a : value) (c : sched_ctx) (* Tasker.Schedule runs; tb.Argument *)
| EvRetire                              (* Tasker.Retire runs *)
| EvFatal                               (* Log.Fatal *)
| EvRetireCancel (key : string)
| EvReloadCancel (key : string)
| EvRetireRegister (key : string)
| EvReloadRegister (key : string)
| EvRetireCtx (d : Z)                   (* t.retire, t.retired = WithTimeout *)
| EvDie                                 (* t.die() *)
| EvRetired                             (* t.retired() *)
| EvWait                                (* stop() reaches <-t.retire.Done() *)
| EvListen (ok : bool)
| EvNewWatcher (ok : bool)
| EvWatcherAdd (ok : bool)
| EvCloseListener
| EvCloseWatcher
| EvLiverRegister (key : string) (timeout : Z)
| EvLiverCancel (key : string)
| EvGo                                  (* go t.routine() *)
| EvReturn (c : call) (e : option error)
| EvPanic.

Global Instance sched_ctx_eq_dec : EqDecision sched_ctx.
Proof. solve_decision. Defined.
Global Instance call_eq_dec : EqDecision call.
Proof. solve_decision. Defined.
Global Instance event_eq_dec : EqDecision event.
Proof. solve_decision. Defined.

(** How the process ends: a panic, or [os.Exit]. *)
Inductive halt := Panic | Exit (code : Z).

(** The work that [stop()] defers to its return. *)
Inductive teardown :=
| CloseListener
| CloseWatcher (made : bool)   (* the receiver bound by the defer *)
| CancelLiver.

(** [onceStop] and the call of [stop()] it guards: not used, inside
    [stop()] at the wait with the deferred call, returned, or left by a
    panic. *)
Inductive stop_state :=
| StopIdle
| StopWaiting (deferred : option teardown)
| StopReturned
| StopPanicked.

(** The goroutine of [routine()]: not started, at the head of the [for],
    at the [select], or returned. *)
Inductive loop_state := NoLoop | LoopTop | LoopSelect | LoopExited.

Global Instance halt_eq_dec : EqDecision halt.
Proof. solve_decision. Defined.
Global Instance teardown_eq_dec : EqDecision teardown.
Proof. solve_decision. Defined.
Global Instance stop_state_eq_dec : EqDecision stop_state.
Proof. solve_decision. Defined.
Global Instance loop_state_eq_dec : EqDecision loop_state.
Proof. solve_decision. Defined.

(** The trigger channel: what waits in it, whether it is closed, and all
    that was ever sent on it. *)
Record Chan := MkChan { buf : list value; closed : bool; sent : list value }.

(** The functions kept in [reloadFuncs] and [retireFuncs]. *)
Inductive func :=
| TaskStop (id : string)        (* the method value t.Stop *)
| TaskReload (id : string)      (* the method value t.Reload *)
| OtherFunc (n : nat).

(** ** The Tasker interface *)

(** What a call of the Tasker leaves: its own state, the [Sleep] flag of
    the [TaskBase] it embeds, and the error it returns. *)
Record Reply (B : Type) := MkReply {
  next : B;
  sleep : bool;
  failure : option error
}.
Arguments MkReply {B}.
Arguments next {B}.
Arguments sleep {B}.
Arguments failure {B}.

(** [type Tasker interface], over the state [B] of the implementation. *)
Record Tasker (B : Type) := MkTasker {
  Schedule : TaskBase -> B -> Reply B;
  Reload : TaskBase -> B -> Reply B;
  Retire : TaskBase -> B -> Reply B
}.
Arguments Schedule {B}.
Arguments Reload {B}.
Arguments Retire {B}.

Section Machine.
Context {B : Type}.

Record State := MkState {
  tasker : B;  (* the private state of the Tasker implementation *)
  tb : TaskBase;  (* the TaskBase embedded in the Tasker *)
  t_id : string;  (* Task.id *)
  onceStop : stop_state;  (* onceStop and the call of stop() it guards *)
  onceStart : bool;  (* onceStart has run *)
  life : context;  (* life, ended by die *)
  nap : option context;  (* nap; None is the nil context before the first loop turn *)
  fire : bool;  (* t.fire != nil; it then cancels the current nap *)
  retire : option context;  (* retire, ended by retired; None before stop() *)
  routine : loop_state;  (* the goroutine of routine() *)
  helper : bool;  (* a helper goroutine of the loop waits on the trigger *)
  now : Z;  (* the clock *)
  chan : Chan;  (* the trigger channel *)
  listener_open : bool;  (* the listener is bound and not closed *)
  watcher_open : bool;  (* the watcher is open *)
  reloadFuncs : gmap string func;
  retireFuncs : gmap string func;
  liver : Liver.data;  (* liverInstance.data *)
  trace : list event;  (* what has happened, oldest first *)
  halted : option halt  (* the process has ended *)
}.

Definition set_tasker (v : B) (s : State) : State :=
  {| tasker := v; tb := tb s; t_id := t_id s; onceStop := onceStop s;
     onceStart := onceStart s; life := life s; nap := nap s; fire := fire s;
     retire := retire s; routine := routine s; helper := helper s;
     now := now s; chan := chan s; listener_open := listener_open s;
     watcher_open := watcher_open s; reloadFuncs := reloadFuncs s;
     retireFuncs := retireFuncs s; liver := liver s; trace := trace s;
     halted := halted s |}.

Definition set_tb (v : TaskBase) (s : State) : State :=
  {| tasker := tasker s; tb := v; t_id := t_id s; onceStop := onceStop s;
     onceStart := onceStart s; life := life s; nap := nap s; fire := fire s;
     retire := retire s; routine := routine s; helper := helper s;
     now := now s; chan := chan s; listener_open := listener_open s;
     watcher_open := watcher_open s; reloadFuncs := reloadFuncs s;
     retireFuncs := retireFuncs s; liver := liver s; trace := trace s;
     halted := halted s |}.

Definition set_t_id (v : string) (s : State) : State :=
  {| tasker := tasker s; tb := tb s; t_id := v; onceStop := onceStop s;
     onceStart := onceStart s; life := life s; nap := nap s; fire := fire s;
     retire := retire s; routine := routine s; helper := helper s;
     now := now s; chan := chan s; listener_open := listener_open s;
     watcher_open := watcher_open s; reloadFuncs := reloadFuncs s;
     retireFuncs := retireFuncs s; liver := liver s; trace := trace s;
     halted := halted s |}.

Definition set_onceStop (v : stop_state) (s : State) : State :=
  {| tasker := tasker s; tb := tb s; t_id := t_id s; onceStop := v;
     onceStart := onceStart s; life := life s; nap := nap s; fire := fire s;
     retire := retire s; routine := routine s; helper := helper s;
     now := now s; chan := chan s; listener_open := listener_open s;
     watcher_open := watcher_open s; reloadFuncs := reloadFuncs s;
     retireFuncs := retireFuncs s; liver := liver s; trace := trace s;
     halted := halted s |}.

Definition set_onceStart (v : bool) (s : State) : State :=
  {| tasker := tasker s; tb := tb s; t_id := t_id s; onceStop := onceStop s;
     onceStart := v; life := life s; nap := nap s; fire := fire s;
     retire := retire s; routine := routine s; helper := helper s;
     now := now s; chan := chan s; listener_open := listener_open s;
     watcher_open := watcher_open s; reloadFuncs := reloadFuncs s;
     retireFuncs := retireFuncs s; liver := liver s; trace := trace s;
     halted := halted s |}.

Definition set_life (v : context) (s : State) : State :=
  {| tasker := tasker s; tb := tb s; t_id := t_id s; onceStop := onceStop s;
     onceStart := onceStart s; life := v; nap := nap s; fire := fire s;
     retire := retire s; routine := routine s; helper := helper s;
     now := now s; chan := chan s; listener_open := listener_open s;
     watcher_open := watcher_open s; reloadFuncs := reloadFuncs s;
     retireFuncs := retireFuncs s; liver := liver s; trace := trace s;
     halted := halted s |}.

Definition set_nap (v : option context) (s : State) : State :=
  {| tasker := tasker s; tb := tb s; t_id := t_id s; onceStop := onceStop s;
     onceStart := onceStart s; life := life s; nap := v; fire := fire s;
     retire := retire s; routine := routine s; helper := helper s;
     now := now s; chan := chan s; listener_open := listener_open s;
     watcher_open := watcher_open s; reloadFuncs := reloadFuncs s;
     retireFuncs := retireFuncs s; liver := liver s; trace := trace s;
     halted := halted s |}.

Definition set_fire (v : bool) (s : State) : State :=
  {| tasker := tasker s; tb := tb s; t_id := t_id s; onceStop := onceStop s;
     onceStart := onceStart s; life := life s; nap := nap s; fire := v;
     retire := retire s; routine := routine s; helper := helper s;
     now := now s; chan := chan s; listener_open := listener_open s;
     watcher_open := watcher_open s; reloadFuncs := reloadFuncs s;
     retireFuncs := retireFuncs s; liver := liver s; trace := trace s;
     halted := halted s |}.

Definition set_retire (v : option context) (s : State) : State :=
  {| tasker := tasker s; tb := tb s; t_id := t_id s; onceStop := onceStop s;
     onceStart := onceStart s; life := life s; nap := nap s; fire := fire s;
     retire := v; routine := routine s; helper := helper s; now := now s;
     chan := chan s; listener_open := listener_open s;
     watcher_open := watcher_open s; reloadFuncs := reloadFuncs s;
     retireFuncs := retireFuncs s; liver := liver s; trace := trace s;
     halted := halted s |}.

Definition set_routine (v : loop_state) (s : State) : State :=
  {| tasker := tasker s; tb := tb s; t_id := t_id s; onceStop := onceStop s;
     onceStart := onceStart s; life := life s; nap := nap s; fire := fire s;
     retire := retire s; routine := v; helper := helper s; now := now s;
     chan := chan s; listener_open := listener_open s;
     watcher_open := watcher_open s; reloadFuncs := reloadFuncs s;
     retireFuncs := retireFuncs s; liver := liver s; trace := trace s;
     halted := halted s |}.

Definition set_helper (v : bool) (s : State) : State :=
  {| tasker := tasker s; tb := tb s; t_id := t_id s; onceStop := onceStop s;
     onceStart := onceStart s; life := life s; nap := nap s; fire := fire s;
     retire := retire s; routine := routine s; helper := v; now := now s;
     chan := chan s; listener_open := listener_open s;
     watcher_open := watcher_open s; reloadFuncs := reloadFuncs s;
     retireFuncs := retireFuncs s; liver := liver s; trace := trace s;
     halted := halted s |}.

Definition set_now (v : Z) (s : State) : State :=
  {| tasker := tasker s; tb := tb s; t_id := t_id s; onceStop := onceStop s;
     onceStart := onceStart s; life := life s; nap := nap s; fire := fire s;
     retire := retire s; routine := routine s; helper := helper s; now := v;
     chan := chan s; listener_open := listener_open s;
     watcher_open := watcher_open s; reloadFuncs := reloadFuncs s;
     retireFuncs := retireFuncs s; liver := liver s; trace := trace s;
     halted := halted s |}.

Definition set_chan (v : Chan) (s : State) : State :=
  {| tasker := tasker s; tb := tb s; t_id := t_id s; onceStop := onceStop s;
     onceStart := onceStart s; life := life s; nap := nap s; fire := fire s;
     retire := retire s; routine := routine s; helper := helper s;
     now := now s; chan := v; listener_open := listener_open s;
     watcher_open := watcher_open s; reloadFuncs := reloadFuncs s;
     retireFuncs := retireFuncs s; liver := liver s; trace := trace s;
     halted := halted s |}.

Definition set_listener_open (v : bool) (s : State) : State :=
  {| tasker := tasker s; tb := tb s; t_id := t_id s; onceStop := onceStop s;
     onceStart := onceStart s; life := life s; nap := nap s; fire := fire s;
     retire := retire s; routine := routine s; helper := helper s;
     now := now s; chan := chan s; listener_open := v;
     watcher_open := watcher_open s; reloadFuncs := reloadFuncs s;
     retireFuncs := retireFuncs s; liver := liver s; trace := trace s;
     halted := halted s |}.

Definition set_watcher_open (v : bool) (s : State) : State :=
  {| tasker := tasker s; tb := tb s; t_id := t_id s; onceStop := onceStop s;
     onceStart := onceStart s; life := life s; nap := nap s; fire := fire s;
     retire := retire s; routine := routine s; helper := helper s;
     now := now s; chan := chan s; listener_open := listener_open s;
     watcher_open := v; reloadFuncs := reloadFuncs s;
     retireFuncs := retireFuncs s; liver := liver s; trace := trace s;
     halted := halted s |}.

Definition set_reloadFuncs (v : gmap string func) (s : State) : State :=
  {| tasker := tasker s; tb := tb s; t_id := t_id s; onceStop := onceStop s;
     onceStart := onceStart s; life := life s; nap := nap s; fire := fire s;
     retire := retire s; routine := routine s; helper := helper s;
     now := now s; chan := chan s; listener_open := listener_open s;
     watcher_open := watcher_open s; reloadFuncs := v;
     retireFuncs := retireFuncs s; liver := liver s; trace := trace s;
     halted := halted s |}.

Definition set_retireFuncs (v : gmap string func) (s : State) : State :=
  {| tasker := tasker s; tb := tb s; t_id := t_id s; onceStop := onceStop s;
     onceStart := onceStart s; life := life s; nap := nap s; fire := fire s;
     retire := retire s; routine := routine s; helper := helper s;
     now := now s; chan := chan s; listener_open := listener_open s;
     watcher_open := watcher_open s; reloadFuncs := reloadFuncs s;
     retireFuncs := v; liver := liver s; trace := trace s;
     halted := halted s |}.

Definition set_liver (v : Liver.data) (s : State) : State :=
  {| tasker := tasker s; tb := tb s; t_id := t_id s; onceStop := onceStop s;
     onceStart := onceStart s; life := life s; nap := nap s; fire := fire s;
     retire := retire s; routine := routine s; helper := helper s;
     now := now s; chan := chan s; listener_open := listener_open s;
     watcher_open := watcher_open s; reloadFuncs := reloadFuncs s;
     retireFuncs := retireFuncs s; liver := v; trace := trace s;
     halted := halted s |}.

Definition set_trace (v : list event) (s : State) : State :=
  {| tasker := tasker s; tb := tb s; t_id := t_id s; onceStop := onceStop s;
     onceStart := onceStart s; life := life s; nap := nap s; fire := fire s;
     retire := retire s; routine := routine s; helper := helper s;
     now := now s; chan := chan s; listener_open := listener_open s;
     watcher_open := watcher_open s; reloadFuncs := reloadFuncs s;
     retireFuncs := retireFuncs s; liver := liver s; trace := v;
     halted := halted s |}.

Definition set_halted (v : option halt) (s : State) : State :=
  {| tasker := tasker s; tb := tb s; t_id := t_id s; onceStop := onceStop s;
     onceStart := onceStart s; life := life s; nap := nap s; fire := fire s;
     retire := retire s; routine := routine s; helper := helper s;
     now := now s; chan := chan s; listener_open := listener_open s;
     watcher_open := watcher_open s; reloadFuncs := reloadFuncs s;
     retireFuncs := retireFuncs s; liver := liver s; trace := trace s;
     halted := v |}.

(** What the surroundings of a new task are: the clock, the content of
    the trigger channel, the registries, and how the system calls of
    [start()] turn out. *)
Record Env := MkEnv {
  env_now : Z;
  env_chan : list value;
  env_reloadFuncs : gmap string func;
  env_retireFuncs : gmap string func;
  env_liver : Liver.data;
  listen_ok : bool;         (* net.Listen succeeds *)
  watcher_ok : bool;        (* fsnotify.NewWatcher succeeds *)
  add_ok : bool             (* Watcher.Add succeeds *)
}.

Variable T : Tasker B.

Definition emit (evs : list event) (s : State) : State :=
  set_trace (trace s ++ evs) s.

Definition panic (s : State) : State :=
  emit [EvPanic] (set_halted (Some Panic) s).

(** [t.Died()]. *)
Definition Died (s : State) : bool := done (life s).

(** [t.die()]. *)
Definition die (s : State) : State :=
  emit [EvDie] (set_life (cancel (life s)) s).

(** The Tasker has run: its state and the [Sleep] flag it may have set. *)
Definition absorb (r : Reply B) (s : State) : State :=
  set_tb (set_Sleep (sleep r) (tb s)) (set_tasker (next r) s).

Definition call_Schedule (c : sched_ctx) (s : State) : State * option error :=
  let r := Schedule T (tb s) (tasker s) in
  (absorb r (emit [EvSchedule (Argument (tb s)) c] s), failure r).

Definition call_Reload (s : State) : State * option error :=
  let r := Reload T (tb s) (tasker s) in
  (absorb r (emit [EvReload] s), failure r).

Definition call_Retire (s : State) : State * option error :=
  let r := Retire T (tb s) (tasker s) in
  (absorb r (emit [EvRetire] s), failure r).

(** [if t.fire != nil { t.fire() }]. *)
Definition wake (s : State) : State :=
  if fire s then set_nap (cancel <$> nap s) s else s.

(** [t.Fire()]. *)
Definition Fire (s : State) : State * option error :=
  if Died s then (s, Some FireDied)
  else if decide (tType (tb s) = taskTypeManual) then call_Schedule LifeCtx s
  else (wake s, None).

(** [t.Reload()]. *)
Definition Task_Reload (s : State) : State * option error :=
  match (call_Reload s).2 with
  | Some e => ((call_Reload s).1, Some e)
  | None => (wake (call_Reload s).1, None)
  end.

(** *** Stop *)

(** The [switch] of [stop()]: the call it defers, or [None] when the type
    assertion in the [defer] statement panics. *)
Definition stop_defer (w : TaskBase) : option (option teardown) :=
  match tType w with
  | taskTypeOnTCP =>
      match Trigger w with
      | VListener => Some (Some CloseListener)
      | _ => None
      end
  | taskTypeOnInterval =>
      match Argument w with
      | VBool true => Some (Some CancelLiver)
      | VBool false => Some None
      | _ => None
      end
  | taskTypeOnFsChange =>
      match Trigger w with
      | VWatcher made => Some (Some (CloseWatcher made))
      | _ => None
      end
  | _ => Some None
  end.

Definition stopTimeout : Z := 3 * Second.

(** [RetireCancel(t.id)] and [ReloadCancel(t.id)]. *)
Definition RetireCancel (s : State) : State :=
  emit [EvRetireCancel (t_id s)]
    (set_retireFuncs (delete (t_id s) (retireFuncs s)) s).

Definition ReloadCancel (s : State) : State :=
  emit [EvReloadCancel (t_id s)]
    (set_reloadFuncs (delete (t_id s) (reloadFuncs s)) s).

(** [t.retire, t.retired = context.WithTimeout(context.Background(),
    3*time.Second)]. *)
Definition open_retire (s : State) : State :=
  emit [EvRetireCtx stopTimeout]
    (set_retire (Some (WithTimeout (now s) stopTimeout)) s).

(** [stop()] down to [t.die()]. *)
Definition stop_begin (s : State) : State :=
  die (open_retire (ReloadCancel (RetireCancel s))).

(** [stop()] up to [<-t.retire.Done()]; [tb] is read when [stop()]
    begins. *)
Definition stop_enter (s : State) : State :=
  match stop_defer (tb s) with
  | Some d => emit [EvWait] (set_onceStop (StopWaiting d) (stop_begin s))
  | None => panic (set_onceStop StopPanicked (stop_begin s))
  end.

(** The deferred call of [stop()]; [None] when it panics, which closing
    through a nil [*Watcher] does. [LiverCancel] is [liver.Cancel] on the
    liver instance. *)
Definition run_deferred (d : option teardown) (s : State) : option State :=
  match d with
  | None => Some s
  | Some CloseListener =>
      Some (emit [EvCloseListener] (set_listener_open false s))
  | Some (CloseWatcher true) =>
      Some (emit [EvCloseWatcher] (set_watcher_open false s))
  | Some (CloseWatcher false) => None
  | Some CancelLiver =>
      Some (emit [EvLiverCancel (t_id s)]
              (set_liver (Liver.Cancel (t_id s) (liver s)).1 s))
  end.

(** The error that [stop()] makes of [t.retire.Err()]. *)
Definition stop_result (id : string) (e : ctx_err) : option error :=
  match e with
  | Canceled => None
  | DeadlineExceeded => Some (StopTimeout id)
  end.

(** [stop()] from [<-t.retire.Done()] on: possible once [t.retire] is
    done. The deferred call runs, then [Stop()] returns the error. *)
Definition stop_leave (s : State) : option State :=
  match onceStop s, retire s with
  | StopWaiting d, Some c =>
      match err c with
      | Some e =>
          match run_deferred d s with
          | Some s1 =>
              Some (emit [EvReturn CStop (stop_result (t_id s) e)]
                      (set_onceStop StopReturned s1))
          | None => Some (panic (set_onceStop StopPanicked s))
          end
      | None => None
      end
  | _, _ => None
  end.

(** [t.Stop()]: the first call runs [stop()]; a call made while [stop()]
    runs waits inside [onceStop.Do]; a later call returns nil. *)
Definition Stop (s : State) : option State :=
  match onceStop s with
  | StopIdle => Some (stop_enter s)
  | StopReturned => Some (emit [EvReturn CStop None] s)
  | _ => None
  end.

(** *** Start *)

(** [start()] from the comment "run" on. *)
Definition RetireRegister (s : State) : State :=
  emit [EvRetireRegister (t_id s)]
    (set_retireFuncs (<[t_id s := TaskStop (t_id s)]> (retireFuncs s)) s).

Definition ReloadRegister (s : State) : State :=
  emit [EvReloadRegister (t_id s)]
    (set_reloadFuncs (<[t_id s := TaskReload (t_id s)]> (reloadFuncs s)) s).

(** [go t.routine()] and the two registrations. *)
Definition go_routine (s : State) : State :=
  ReloadRegister (RetireRegister (emit [EvGo] (set_routine LoopTop s))).

(** The first [Schedule] of a task that starts immediately; an error
    [context.Canceled] is dropped. *)
Definition first_fire (s : State) : State * option error :=
  if Immediately (tb s) && negb (Sleep (tb s)) then
    ((call_Schedule LifeCtx s).1,
     if decide ((call_Schedule LifeCtx s).2 = Some ContextCanceled)
     then None else (call_Schedule LifeCtx s).2)
  else (s, None).

Definition start_run (s : State) : State * option error :=
  (go_routine (first_fire s).1, (first_fire s).2).

(** [tb.Trigger, err = fsnotify.NewWatcher()] without error. *)
Definition new_watcher (s : State) : State :=
  emit [EvNewWatcher true]
    (set_watcher_open true (set_tb (set_Trigger (VWatcher true) (tb s)) s)).

(** [start()]. *)
Definition start (w : Env) (s : State) : State * option error :=
  if Died s then (s, Some StartDied) else
  match tType (tb s) with
  | taskTypeManual =>
      if Immediately (tb s) then call_Schedule LifeCtx s else (s, None)
  | taskTypeOnetime =>
      (die (call_Schedule LifeCtx s).1, (call_Schedule LifeCtx s).2)
  | taskTypeOnTCP =>
      match Argument (tb s) with
      | VString _ =>
          if listen_ok w then
            start_run (emit [EvListen true]
                         (set_listener_open true
                            (set_tb (set_Trigger VListener (tb s)) s)))
          else
            (die (emit [EvListen false]
                    (set_tb (set_Trigger VNil (tb s)) s)),
             Some ListenError)
      | _ => (panic s, None)
      end
  | taskTypeOnFsChange =>
      if watcher_ok w then
        match Argument (tb s) with
        | VString _ =>
            if add_ok w
            then start_run (emit [EvWatcherAdd true] (new_watcher s))
            else
              (die (emit [EvWatcherAdd false; EvCloseWatcher]
                      (set_watcher_open false (new_watcher s))),
               Some WatcherError)
        | _ => (panic (new_watcher s), None)
        end
      else
        (die (emit [EvNewWatcher false]
                (set_tb (set_Trigger (VWatcher false) (tb s)) s)),
         Some WatcherError)
  | _ => start_run s
  end.

(** [t.Start()]. *)
Definition Start (w : Env) (s : State) : State * option error :=
  if onceStart s then (s, None) else start w (set_onceStart true s).

(** *** Construction *)

(** The [Task] that [newTask] fills in before it calls [t.Reload()]. *)
Definition initial (tasker0 : B) (taskBase : TaskBase) (w : Env) : State :=
  {| tasker := tasker0; tb := taskBase;
     t_id := Name taskBase +:+ "/" +:+ tb_id taskBase;
     onceStop := StopIdle; onceStart := false;
     life := WithCancel; nap := None; fire := false; retire := None;
     routine := NoLoop; helper := false;
     now := env_now w;
     chan := MkChan (env_chan w) false (env_chan w);
     listener_open := false; watcher_open := false;
     reloadFuncs := env_reloadFuncs w; retireFuncs := env_retireFuncs w;
     liver := env_liver w; trace := []; halted := None |}.

(** [newTask(tasker, taskBase)]. [Log.Fatal] ends the process with
    [os.Exit(1)]. The state that results holds the task and the error
    that [newTask] returns is the last event of its trace. *)
Definition fatal (s : State) : State :=
  emit [EvFatal] (set_halted (Some (Exit 1)) s).

Definition newTask (tasker0 : B) (taskBase : TaskBase) (w : Env) : State :=
  let t := initial tasker0 taskBase w in
  match (Task_Reload t).2 with
  | Some _ => fatal (Task_Reload t).1
  | None =>
      let r := Start w (Task_Reload t).1 in
      if bool_decide (halted r.1 = None)
      then emit [EvReturn CNewTask r.2] r.1
      else r.1
  end.

Definition NewTaskOneTime (task : B) (args : list arg) (uuid : string)
  : Env -> State :=
  newTask task
    (newTaskBase (TaskBase_lit taskTypeOnetime VNil false) args uuid).

Definition NewTaskOnTCP (task : B) (listen : string) (args : list arg)
  (uuid : string) : Env -> State :=
  newTask task
    (newTaskBase (TaskBase_lit taskTypeOnTCP (VString listen) false)
       args uuid).

Definition NewTaskOnReload (task : B) (args : list arg) (uuid : string)
  : Env -> State :=
  newTask task
    (newTaskBase (TaskBase_lit taskTypeOnReload VNil true) args uuid).

Definition NewTaskOnChannel (task : B) (args : list arg) (uuid : string)
  : Env -> State :=
  newTask task
    (newTaskBase (TaskBase_lit taskTypeOnChannel VNil false) args uuid).

Definition NewTaskOnInterval (task : B) (args : list arg) (uuid : string)
  : Env -> State :=
  newTask task
    (newTaskBase (TaskBase_lit taskTypeOnInterval (VBool true) true)
       args uuid).

Definition NewTaskOnFsChange (task : B) (path : string) (args : list arg)
  (uuid : string) : Env -> State :=
  newTask task
    (newTaskBase (TaskBase_lit taskTypeOnFsChange (VString path) false)
       args uuid).

Definition NewTaskManual (task : B) (args : list arg) (uuid : string)
  : Env -> State :=
  newTask task
    (newTaskBase (TaskBase_lit taskTypeManual VNil false) args uuid).

(** *** The goroutine of [routine()] *)

(** The [switch] at the head of the [for]: the nap of this turn, or
    [None] when a type assertion panics or [t.nap] is still nil at the
    [select]. [LiverRegister] and [LiverCancel] are [liver.Register] and
    [liver.Cancel] on the liver instance. For the accept, channel and
    watcher types a helper goroutine is started, which holds the
    [CancelFunc] of the nap; [t.fire] is left as it was. *)
Definition derive_nap (s : State) : option State :=
  match tType (tb s) with
  | taskTypeOnInterval =>
      if Sleep (tb s) then
        Some (emit [EvLiverCancel (t_id s)]
                (set_liver (Liver.Cancel (t_id s) (liver s)).1
                   (set_fire true (set_nap (Some WithCancel) s))))
      else
        match Trigger (tb s) with
        | VDuration d =>
            match Argument (tb s) with
            | VBool true =>
                Some (emit [EvLiverRegister (t_id s) (Duration_mul d 4)]
                        (set_liver
                           (Liver.Register (now s) (t_id s)
                              (Duration_mul d 4) (liver s))
                           (set_fire true
                              (set_nap (Some (WithTimeout (now s) d)) s))))
            | VBool false =>
                Some (set_fire true
                        (set_nap (Some (WithTimeout (now s) d)) s))
            | _ => None
            end
        | _ => None
        end
  | taskTypeOnReload | taskTypeManual =>
      Some (set_fire true (set_nap (Some WithCancel) s))
  | taskTypeOnTCP | taskTypeOnChannel | taskTypeOnFsChange =>
      Some (set_helper true (set_nap (Some WithCancel) s))
  | taskTypeOnetime =>
      match nap s with
      | Some _ => Some s
      | None => None
      end
  end.

(** From the head of the [for] to the [select]. *)
Definition loop_derive (s : State) : option State :=
  match routine s with
  | LoopTop =>
      match derive_nap s with
      | Some s1 => Some (set_routine LoopSelect s1)
      | None => Some (panic s)
      end
  | _ => None
  end.

(** The call of [Schedule] in the loop: an interval task that sleeps
    skips it, and one that is awake bounds it by its interval; [None]
    when the type assertion panics. *)
Definition loop_fire (s : State) : option State :=
  if decide (tType (tb s) = taskTypeOnInterval) then
    if Sleep (tb s) then Some s
    else match Trigger (tb s) with
         | VDuration d => Some (call_Schedule (LifeTimeout d) s).1
         | _ => None
         end
  else Some (call_Schedule LifeCtx s).1.

(** The [select] takes [<-t.nap.Done()]: the task fires, and the loop is
    back at its head. *)
Definition loop_schedule (s : State) : option State :=
  match routine s, nap s with
  | LoopSelect, Some c =>
      if done c then
        match loop_fire s with
        | Some s1 => Some (set_routine LoopTop s1)
        | None => Some (panic s)
        end
      else None
  | _, _ => None
  end.

(** [t.retired()] after [Retire]. *)
Definition retired (c : context) (s : State) : State :=
  set_routine LoopExited (emit [EvRetired] (set_retire (Some (cancel c)) s)).

(** The [select] takes [<-t.life.Done()]: [Retire], then [t.retired()],
    which panics when [t.retired] is nil, then the goroutine returns. *)
Definition loop_retire (s : State) : option State :=
  match routine s with
  | LoopSelect =>
      if Died s then
        match retire s with
        | Some c => Some (retired c (call_Retire s).1)
        | None => Some (panic (call_Retire s).1)
        end
      else None
  | _ => None
  end.

(** *** The helper goroutines *)

Definition cancel_nap (s : State) : State := set_nap (cancel <$> nap s) s.

Definition set_arg (v : value) (s : State) : State :=
  set_tb (set_Argument v (tb s)) s.

(** The helper of a channel task at [Recv()]: a value is taken, or the
    channel is closed and empty and the helper calls [t.die()]. *)
Definition helper_recv (s : State) : option State :=
  if helper s && bool_decide (tType (tb s) = taskTypeOnChannel) then
    match Trigger (tb s) with
    | VChan =>
        match buf (chan s) with
        | v :: rest =>
            Some (cancel_nap
                    (set_arg v
                       (set_helper false
                          (set_chan (MkChan rest (closed (chan s))
                                       (sent (chan s))) s))))
        | [] =>
            if closed (chan s) then Some (die (set_helper false s))
            else None
        end
    | _ => Some (panic s)
    end
  else None.

(** The helper of an accept task: [Accept()] gives a connection. *)
Definition helper_accept (c : Z) (s : State) : option State :=
  if helper s && bool_decide (tType (tb s) = taskTypeOnTCP)
     && listener_open s then
    Some (cancel_nap (set_arg (VConn c) (set_helper false s)))
  else None.

(** The helper of an accept task: [Accept()] gives an error; the helper
    returns when the task has died and tries again otherwise. *)
Definition helper_accept_err (s : State) : option State :=
  if helper s && bool_decide (tType (tb s) = taskTypeOnTCP) then
    if Died s then Some (cancel_nap (set_helper false (set_arg VNil s)))
    else Some (set_arg VNil s)
  else None.

(** The helper of a watcher task: an event arrives. *)
Definition helper_fs_event (e : Z) (s : State) : option State :=
  if helper s && bool_decide (tType (tb s) = taskTypeOnFsChange)
     && watcher_open s then
    Some (cancel_nap (set_arg (VEvent e) (set_helper false s)))
  else None.

(** The helper of a watcher task: the event channel is closed, the
    receive gives the zero event, and the helper stays in its loop. *)
Definition helper_fs_closed (s : State) : option State :=
  if helper s && bool_decide (tType (tb s) = taskTypeOnFsChange)
     && negb (watcher_open s) then
    Some (set_arg (VEvent 0) s)
  else None.

(** *** The trigger channel and the clock *)

Definition chan_send (v : value) (s : State) : option State :=
  if closed (chan s) then None
  else Some (set_chan (MkChan (buf (chan s) ++ [v]) false
                         (sent (chan s) ++ [v])) s).

Definition chan_close (s : State) : option State :=
  if closed (chan s) then None
  else Some (set_chan (MkChan (buf (chan s)) true (sent (chan s))) s).

Definition tick (dt : Z) (s : State) : option State :=
  if 0 <=? dt then Some (set_now (now s + dt) s) else None.

Definition nap_expire (s : State) : option State :=
  match nap s with
  | Some c =>
      match expire (now s) c with
      | Some c' => Some (set_nap (Some c') s)
      | None => None
      end
  | None => None
  end.

Definition retire_expire (s : State) : option State :=
  match retire s with
  | Some c =>
      match expire (now s) c with
      | Some c' => Some (set_retire (Some c') s)
      | None => None
      end
  | None => None
  end.

(** ** The machine *)

Inductive action :=
| CallFire | CallReload | CallStop | CallStart   (* calls on the task *)
| StopWake                      (* [<-t.retire.Done()] yields in stop() *)
| LoopDerive | LoopSchedule | LoopRetire
| HelperRecv
| HelperAccept (c : Z) | HelperAcceptErr
| HelperFsEvent (e : Z) | HelperFsClosed
| ChanSend (v : value) | ChanClose
| Tick (dt : Z) | NapExpire | RetireExpire.

#[global] Instance action_eq_dec : EqDecision action.
Proof. solve_decision. Defined.

(** One step of a task that [newTask] has returned; nothing moves once
    the process has ended. [Start()] on such a task finds [onceStart]
    used. *)
Definition step (s : State) (a : action) : option State :=
  if bool_decide (halted s = None) then
    match a with
    | CallFire => Some (emit [EvReturn CFire (Fire s).2] (Fire s).1)
    | CallReload =>
        Some (emit [EvReturn CReload (Task_Reload s).2] (Task_Reload s).1)
    | CallStop => Stop s
    | CallStart =>
        if onceStart s then Some (emit [EvReturn CStart None] s) else None
    | StopWake => stop_leave s
    | LoopDerive => loop_derive s
    | LoopSchedule => loop_schedule s
    | LoopRetire => loop_retire s
    | HelperRecv => helper_recv s
    | HelperAccept c => helper_accept c s
    | HelperAcceptErr => helper_accept_err s
    | HelperFsEvent e => helper_fs_event e s
    | HelperFsClosed => helper_fs_closed s
    | ChanSend v => chan_send v s
    | ChanClose => chan_close s
    | Tick dt => tick dt s
    | NapExpire => nap_expire s
    | RetireExpire => retire_expire s
    end
  else None.

Fixpoint run (s : State) (acts : list action) : option State :=
  match acts with
  | [] => Some s
  | a :: rest => match step s a with
                 | Some s' => run s' rest
                 | None => None
                 end
  end.

(** ** Reading a trace *)

(** The arguments of the [Schedule] calls, in order. *)
Definition sched_args (tr : list event) : list value :=
  omap (fun ev => match ev with
                  | EvSchedule a _ => Some a
                  | _ => None
                  end) tr.

Definition count_event (ev : event) (tr : list event) : nat :=
  length (filter (fun e => e = ev) tr).

End Machine.
Arguments State : clear implicits.

End TaskCore.

(** ** Example tasks *)

Module Examples.
Import TaskCore.

(** A Tasker that does nothing and never fails. *)
Definition quiet : Tasker unit :=
  {| Schedule := fun w b => MkReply b (Sleep w) None;
     Reload := fun w b => MkReply b (Sleep w) None;
     Retire := fun w b => MkReply b (Sleep w) None |}.

(** A Tasker whose [Schedule] fails. *)
Definition failing : Tasker unit :=
  {| Schedule := fun w b => MkReply b (Sleep w) (Some (TaskerError "no"));
     Reload := fun w b => MkReply b (Sleep w) None;
     Retire := fun w b => MkReply b (Sleep w) None |}.

(** Empty registries, an empty channel, and system calls that succeed. *)
Definition env0 : Env := MkEnv 0 [] ∅ ∅ ∅ true true true.

(** No listener can be bound. *)
Definition env_nolisten : Env := MkEnv 0 [] ∅ ∅ ∅ false true true.

(** The state after a run, or the first state when the run is not
    possible. *)
Definition after {B} (T : Tasker B) (s0 : State B) (acts : list action)
  : State B :=
  default s0 (run T s0 acts).

Definition tcp_base : TaskBase :=
  newTaskBase (TaskBase_lit taskTypeOnTCP (VString ":80") false) [] "u1".

Definition chan_base : TaskBase :=
  newTaskBase (TaskBase_lit taskTypeOnChannel VNil false)
    [ArgString "signal"; ArgChan] "u2".

Definition manual_base : TaskBase :=
  newTaskBase (TaskBase_lit taskTypeManual VNil false) [ArgBool true] "u3".

Definition interval_base : TaskBase :=
  newTaskBase (TaskBase_lit taskTypeOnInterval (VBool true) true)
    [ArgString "memor"; ArgDuration (20 * Second)] "u4".

Definition reload_base : TaskBase :=
  newTaskBase (TaskBase_lit taskTypeOnReload VNil true) [] "u5".

Definition onetime_base : TaskBase :=
  newTaskBase (TaskBase_lit taskTypeOnetime VNil false) [ArgString "info"]
    "u6".

End Examples.
(** * Facts about package randid *)

Section BitArithmetic.

Lemma land_low_high (hi lo k : Z) :
  0 <= k -> 0 <= lo < 2 ^ k -> Z.land (Z.shiftl hi k) lo = 0.
Proof.
  intros Hk Hlo. apply Z.bits_inj'. intros n Hn.
  rewrite Z.land_spec, Z.bits_0.
  destruct (Z.lt_ge_cases n k) as [Hlt | Hge].
  - rewrite Z.shiftl_spec_low by lia. reflexivity.
  - destruct (Z.eq_dec lo 0) as [-> | Hne].
    + rewrite Z.bits_0. apply andb_false_r.
    + rewrite (Z.bits_above_log2 lo n); [apply andb_false_r | lia |].
      apply Z.lt_le_trans with k; [| lia].
      apply Z.log2_lt_pow2; lia.
Qed.

(** Or-ing a multiple of [2^k] with a value below [2^k] adds them. *)
Lemma lor_add (x y k : Z) :
  0 <= k -> x mod 2 ^ k = 0 -> 0 <= y < 2 ^ k -> Z.lor x y = x + y.
Proof.
  intros Hk Hx Hy.
  assert (Hs : x = Z.shiftl (x / 2 ^ k) k).
  { rewrite Z.shiftl_mul_pow2 by lia.
    pose proof (Z.div_mod x (2 ^ k)) as Hd. lia. }
  rewrite Hs at 1.
  rewrite <- Z.lxor_lor by (apply land_low_high; lia).
  rewrite <- Z.add_nocarry_lxor by (apply land_low_high; lia).
  rewrite <- Hs. reflexivity.
Qed.

Lemma land_mask (a k : Z) : 0 <= k -> Z.land a (2 ^ k - 1) = a mod 2 ^ k.
Proof.
  intros Hk. rewrite <- Z.land_ones by lia. rewrite Z.ones_equiv.
  rewrite <- Z.sub_1_r. reflexivity.
Qed.

Lemma land_shifted_mask (x m k : Z) :
  0 <= k -> Z.land x (Z.shiftl m k) = Z.shiftl (Z.land (Z.shiftr x k) m) k.
Proof.
  intros Hk. apply Z.bits_inj'. intros n Hn.
  rewrite Z.land_spec.
  destruct (Z.lt_ge_cases n k) as [Hlt | Hge].
  - rewrite !Z.shiftl_spec_low by lia. apply andb_false_r.
  - rewrite !Z.shiftl_spec by lia. rewrite Z.land_spec, Z.shiftr_spec by lia.
    do 2 f_equal. lia.
Qed.

Lemma lxor_byte (a b : Z) : is_byte a -> is_byte b -> is_byte (Z.lxor a b).
Proof.
  unfold is_byte. intros Ha Hb.
  assert (H0 : 0 <= Z.lxor a b) by (apply Z.lxor_nonneg; lia).
  split; [exact H0 |].
  destruct (Z.eq_dec (Z.lxor a b) 0) as [-> | Hne]; [lia |].
  change 256 with (2 ^ 8). apply Z.log2_lt_pow2; [lia |].
  eapply Z.le_lt_trans; [apply Z.log2_lxor; lia |].
  destruct (Z.eq_dec a 0) as [-> | Ha0], (Z.eq_dec b 0) as [-> | Hb0];
    cbn [Z.log2 Z.max]; try lia.
  - rewrite Z.max_r by apply Z.log2_nonneg. apply Z.log2_lt_pow2; lia.
  - rewrite Z.max_l by apply Z.log2_nonneg. apply Z.log2_lt_pow2; lia.
  - apply Z.max_lub_lt; apply Z.log2_lt_pow2; lia.
Qed.

Lemma lxor_cancel_r (a b : Z) : Z.lxor (Z.lxor a b) b = a.
Proof. rewrite Z.lxor_assoc, Z.lxor_nilpotent. apply Z.lxor_0_r. Qed.

End BitArithmetic.

Section RandIDFacts.
Import RandID.

Lemma dec_enc_loop (p : list Z) :
  length p = 12%nat -> dec_loop (enc_loop p) = p.
Proof.
  intros Hlen.
  do 12 (destruct p as [| ? p]; [discriminate Hlen |]).
  destruct p; [| discriminate Hlen].
  cbv [dec_loop enc_loop fold_left seq rev app dec_step enc_step
       Nat.mul Nat.add nth insert list_insert].
  rewrite !lxor_cancel_r. reflexivity.
Qed.

Lemma enc_loop_bytes (p : list Z) :
  length p = 12%nat -> Forall is_byte p ->
  length (enc_loop p) = 12%nat /\ Forall is_byte (enc_loop p).
Proof.
  intros Hlen Hb.
  do 12 (destruct p as [| ? p]; [discriminate Hlen |]).
  destruct p; [| discriminate Hlen].
  cbv [enc_loop fold_left seq enc_step Nat.mul Nat.add nth insert list_insert].
  split; [reflexivity |].
  repeat match goal with
         | H : Forall _ (_ :: _) |- _ => apply Forall_cons_1 in H; destruct H
         end.
  repeat (apply Forall_cons_2; [repeat apply lxor_byte; assumption |]).
  apply Forall_nil_2.
Qed.

(** *** The base64 alphabet *)

Lemma enc_char_facts (v : Z) :
  0 <= v < 64 ->
  dec_char (enc_char v) = Some v /\ is_newline (enc_char v) = false.
Proof.
  intros Hv. rewrite <- (Z2Nat.id v) by lia.
  assert (Hn : (Z.to_nat v < 64)%nat) by lia.
  generalize dependent (Z.to_nat v). clear v Hv. intros n Hn.
  do 64 (destruct n as [| n]; [split; reflexivity |]). lia.
Qed.

Lemma dec_enc_char (v : Z) : 0 <= v < 64 -> dec_char (enc_char v) = Some v.
Proof. intros Hv. apply enc_char_facts, Hv. Qed.

Lemma enc_char_no_newline (v : Z) :
  0 <= v < 64 -> is_newline (enc_char v) = false.
Proof. intros Hv. apply enc_char_facts, Hv. Qed.

Lemma join3 (a b c : Z) :
  is_byte a -> is_byte b -> is_byte c ->
  Z.lor (Z.lor (Z.shiftl a 16) (Z.shiftl b 8)) c = a * 65536 + b * 256 + c.
Proof.
  unfold is_byte. intros Ha Hb Hc.
  rewrite !Z.shiftl_mul_pow2 by lia.
  rewrite (lor_add (a * 2 ^ 16) (b * 2 ^ 8) 16); [| lia | | lia].
  - rewrite (lor_add _ c 8); [lia | lia | | lia].
    change (2 ^ 16) with (256 * 2 ^ 8).
    rewrite Z.mul_assoc, <- Z.mul_add_distr_r. apply Z.mod_mul. lia.
  - apply Z.mod_mul. lia.
Qed.

Lemma sextets (v : Z) :
  0 <= v < 2 ^ 24 ->
  Z.land (Z.shiftr v 18) 0x3F = v / 2 ^ 18 /\
  Z.land (Z.shiftr v 12) 0x3F = (v / 2 ^ 12) mod 64 /\
  Z.land (Z.shiftr v 6) 0x3F = (v / 2 ^ 6) mod 64 /\
  Z.land v 0x3F = v mod 64.
Proof.
  intros Hv. rewrite !Z.shiftr_div_pow2 by lia.
  change 0x3F with (2 ^ 6 - 1). rewrite !land_mask by lia.
  change (2 ^ 6) with 64. change (2 ^ 18) with 262144.
  change (2 ^ 12) with 4096. change (2 ^ 24) with 16777216 in Hv.
  repeat split. Z.div_mod_to_equations; lia.
Qed.

Lemma dec_value_sextets (v : Z) :
  0 <= v < 2 ^ 24 ->
  dec_value (v / 2 ^ 18) ((v / 2 ^ 12) mod 64) ((v / 2 ^ 6) mod 64) (v mod 64)
  = v.
Proof.
  intros Hv. unfold dec_value.
  change (2 ^ 24) with 16777216 in Hv.
  rewrite !Z.shiftl_mul_pow2 by lia.
  change (2 ^ 18) with 262144. change (2 ^ 12) with 4096.
  change (2 ^ 6) with 64.
  rewrite (lor_add (v / 262144 * 262144) _ 18);
    [| lia | change (2 ^ 18) with 262144; Z.div_mod_to_equations; lia
     | change (2 ^ 18) with 262144; Z.div_mod_to_equations; lia].
  rewrite (lor_add _ (v / 64 mod 64 * 64) 12);
    [| lia | change (2 ^ 12) with 4096; Z.div_mod_to_equations; lia
     | change (2 ^ 12) with 4096; Z.div_mod_to_equations; lia].
  rewrite (lor_add _ (v mod 64) 6);
    [| lia | change (2 ^ 6) with 64; Z.div_mod_to_equations; lia
     | change (2 ^ 6) with 64; Z.div_mod_to_equations; lia].
  Z.div_mod_to_equations; lia.
Qed.

Lemma dec_bytes_join (a b c : Z) :
  is_byte a -> is_byte b -> is_byte c ->
  dec_bytes (a * 65536 + b * 256 + c) = [a; b; c].
Proof.
  unfold is_byte, dec_bytes. intros Ha Hb Hc.
  rewrite !Z.shiftr_div_pow2 by lia.
  change 0xFF with (2 ^ 8 - 1). rewrite !land_mask by lia.
  change (2 ^ 8) with 256. change (2 ^ 16) with 65536.
  repeat f_equal; Z.div_mod_to_equations; lia.
Qed.

Lemma dec_enc_quantum (a b c : Z) (rest : list ascii) :
  is_byte a -> is_byte b -> is_byte c ->
  b64_decode_quanta (enc_quantum a b c ++ rest)
  = match b64_decode_quanta rest with
    | Some out => Some (a :: b :: c :: out)
    | None => None
    end.
Proof.
  intros Ha Hb Hc. unfold enc_quantum.
  rewrite (join3 a b c Ha Hb Hc).
  set (v := a * 65536 + b * 256 + c).
  assert (Hv : 0 <= v < 2 ^ 24)
    by (change (2 ^ 24) with 16777216; unfold is_byte in *; lia).
  destruct (sextets v Hv) as (-> & -> & -> & ->).
  cbn [app b64_decode_quanta].
  change (2 ^ 24) with 16777216 in Hv.
  rewrite (dec_enc_char (v / 2 ^ 18))
    by (change (2 ^ 18) with 262144; Z.div_mod_to_equations; lia).
  rewrite (dec_enc_char ((v / 2 ^ 12) mod 64))
    by (Z.div_mod_to_equations; lia).
  rewrite (dec_enc_char ((v / 2 ^ 6) mod 64))
    by (Z.div_mod_to_equations; lia).
  rewrite (dec_enc_char (v mod 64)) by (Z.div_mod_to_equations; lia).
  rewrite dec_value_sextets by (change (2 ^ 24) with 16777216; lia).
  subst v. rewrite dec_bytes_join by assumption. reflexivity.
Qed.

Lemma enc_quantum_no_newline (a b c : Z) :
  is_byte a -> is_byte b -> is_byte c ->
  Forall (fun ch => is_newline ch = false) (enc_quantum a b c).
Proof.
  intros Ha Hb Hc. unfold enc_quantum.
  rewrite (join3 a b c Ha Hb Hc).
  set (v := a * 65536 + b * 256 + c).
  assert (Hv : 0 <= v < 2 ^ 24)
    by (change (2 ^ 24) with 16777216; unfold is_byte in *; lia).
  destruct (sextets v Hv) as (-> & -> & -> & ->).
  change (2 ^ 24) with 16777216 in Hv.
  repeat (apply Forall_cons_2;
          [apply enc_char_no_newline;
           change (2 ^ 18) with 262144; Z.div_mod_to_equations; lia |]).
  apply Forall_nil_2.
Qed.

Lemma filter_all {A} (P : A -> Prop) `{!forall x, Decision (P x)} (l : list A) :
  Forall P l -> filter P l = l.
Proof.
  induction 1 as [| x l Hx _ IH]; [reflexivity |].
  rewrite filter_cons_True by exact Hx. f_equal. exact IH.
Qed.

(** Decoding undoes encoding on whole quanta, and the encoder emits no
    line breaks, so [b64_decode] sees every character. *)
Lemma b64_roundtrip (n : nat) (p : list Z) :
  length p = (3 * n)%nat -> Forall is_byte p ->
  b64_decode (b64_encode p) = Some p /\
  length (b64_encode p) = (4 * n)%nat.
Proof.
  unfold b64_decode. revert p.
  assert (Hgen : forall p, length p = (3 * n)%nat -> Forall is_byte p ->
            b64_decode_quanta (b64_encode p) = Some p /\
            Forall (fun ch => is_newline ch = false) (b64_encode p) /\
            length (b64_encode p) = (4 * n)%nat).
  { induction n as [| n IH]; intros p Hlen Hb.
    - destruct p; [| discriminate Hlen]. repeat split. constructor.
    - destruct p as [| a [| b [| c rest]]]; cbn in Hlen; try lia.
      apply Forall_cons_1 in Hb as [Ha Hb].
      apply Forall_cons_1 in Hb as [Hb' Hb].
      apply Forall_cons_1 in Hb as [Hc Hb].
      destruct (IH rest ltac:(lia) Hb) as (Hdec & Hnl & Hl).
      cbn [b64_encode]. split; [| split].
      + rewrite dec_enc_quantum by assumption. rewrite Hdec. reflexivity.
      + apply Forall_app_2; [apply enc_quantum_no_newline |]; assumption.
      + rewrite length_app, Hl. cbn. lia. }
  intros p Hlen Hb. destruct (Hgen p Hlen Hb) as (Hdec & Hnl & Hl).
  rewrite filter_all by exact Hnl. split; assumption.
Qed.

(** *** Shape of the plain bytes *)

Lemma le_bytes32_bytes (v : Z) : Forall is_byte (le_bytes32 v).
Proof.
  unfold le_bytes32, is_byte. change 0xFF with (2 ^ 8 - 1).
  rewrite !land_mask by lia. change (2 ^ 8) with 256.
  repeat (apply Forall_cons_2; [apply Z.mod_pos_bound; lia |]).
  apply Forall_nil_2.
Qed.

Lemma plain_shape (now seq' : Z) (marker : list Z) :
  length marker = 6%nat ->
  plain now seq' marker
  = marker ++ take 3 (le_bytes32 (uint32 now)) ++ take 3 (le_bytes32 seq').
Proof.
  intros Hlen.
  do 6 (destruct marker as [| ? marker]; [discriminate Hlen |]).
  destruct marker; [| discriminate Hlen]. reflexivity.
Qed.

Lemma plain_bytes (now seq' : Z) (marker : list Z) :
  length marker = 6%nat -> Forall is_byte marker ->
  length (plain now seq' marker) = 12%nat /\
  Forall is_byte (plain now seq' marker).
Proof.
  intros Hlen Hb. rewrite plain_shape by exact Hlen. split.
  - rewrite !length_app, Hlen. reflexivity.
  - repeat apply Forall_app_2; [exact Hb | |];
      apply Forall_take, le_bytes32_bytes.
Qed.

Lemma copy_whole (bytes : list Z) :
  length bytes = 12%nat -> copy (replicate 12 0) 0 12 bytes = bytes.
Proof.
  intros Hlen.
  do 12 (destruct bytes as [| ? bytes]; [discriminate Hlen |]).
  destruct bytes; [| discriminate Hlen]. reflexivity.
Qed.

(** *** The recovered time *)

Lemma timestamp_value (now now' : Z) :
  let t := uint32 now in
  let b0 := Z.land t 0xFF in
  let b1 := Z.land (Z.shiftr t 8) 0xFF in
  let b2 := Z.land (Z.shiftr t 16) 0xFF in
  int64 (Z.lor (uint64 (Uint32 [b0; b1; b2; 0]))
               (Z.land (uint64 now') 0xFF000000))
  = (now' / 2 ^ 24) mod 2 ^ 8 * 2 ^ 24 + now mod 2 ^ 24.
Proof.
  cbv zeta. unfold Uint32. cbn [nth].
  rewrite !Z.shiftr_div_pow2 by lia.
  change 0xFF with (2 ^ 8 - 1). rewrite !land_mask by lia.
  change 0xFF000000 with (Z.shiftl (2 ^ 8 - 1) 24).
  rewrite land_shifted_mask by lia. rewrite land_mask by lia.
  rewrite Z.shiftr_div_pow2 by lia. rewrite !Z.shiftl_mul_pow2 by lia.
  unfold uint32, uint64, int64.
  change (2 ^ 8) with 256. change (2 ^ 16) with 65536.
  change (2 ^ 24) with 16777216. change (2 ^ 32) with 4294967296.
  change (2 ^ 63) with 9223372036854775808.
  change (2 ^ 64) with 18446744073709551616.
  set (t := now mod 4294967296).
  assert (Ht : 0 <= t < 4294967296) by (apply Z.mod_pos_bound; lia).
  rewrite Z.mul_0_l, Z.lor_0_r.
  set (b0 := t mod 256). set (b1 := t / 256 mod 256).
  set (b2 := t / 65536 mod 256).
  assert (Hb0 : 0 <= b0 < 256) by (apply Z.mod_pos_bound; lia).
  assert (Hb1 : 0 <= b1 < 256) by (apply Z.mod_pos_bound; lia).
  assert (Hb2 : 0 <= b2 < 256) by (apply Z.mod_pos_bound; lia).
  rewrite (Z.lor_comm b0 (b1 * 256)).
  rewrite (lor_add (b1 * 256) b0 8);
    [| lia | apply Z.mod_mul; lia | change (2 ^ 8) with 256; lia].
  rewrite (Z.lor_comm (b1 * 256 + b0) (b2 * 65536)).
  rewrite (lor_add (b2 * 65536) (b1 * 256 + b0) 16);
    [| lia | change (2 ^ 16) with 65536; apply Z.mod_mul; lia
     | change (2 ^ 16) with 65536; lia].
  set (lo := b2 * 65536 + (b1 * 256 + b0)).
  assert (Hlo : lo = now mod 16777216)
    by (subst lo b0 b1 b2 t; Z.div_mod_to_equations; lia).
  assert (Hlo' : 0 <= lo < 16777216)
    by (rewrite Hlo; apply Z.mod_pos_bound; lia).
  rewrite (Z.mod_small lo) by lia.
  set (hi := now' mod 18446744073709551616 / 16777216 mod 256).
  assert (Hhi : hi = now' / 16777216 mod 256)
    by (subst hi; Z.div_mod_to_equations; lia).
  assert (Hhi' : 0 <= hi < 256) by (rewrite Hhi; apply Z.mod_pos_bound; lia).
  rewrite (Z.lor_comm lo (hi * 16777216)).
  rewrite (lor_add (hi * 16777216) lo 24);
    [| lia | change (2 ^ 24) with 16777216; apply Z.mod_mul; lia
     | change (2 ^ 24) with 16777216; lia].
  rewrite (Z.mod_small (hi * 16777216 + lo + _)) by lia.
  rewrite <- Hlo, <- Hhi. lia.
Qed.

(** What [Decode] computes from an identifier made by [New]. *)
Lemma Decode_New_value (marker : list Z) (now seq now' : Z) :
  length marker = 6%nat -> Forall is_byte marker ->
  Decode now' (New now seq marker).1
  = Some (take 4 (drop 2 marker),
          (now' / 2 ^ 24) mod 2 ^ 8 * 2 ^ 24 + now mod 2 ^ 24).
Proof.
  intros Hlen Hb. unfold Decode, New. cbn [fst].
  set (p := plain now (uint32 (seq + seqInc)) marker).
  destruct (plain_bytes now (uint32 (seq + seqInc)) marker Hlen Hb)
    as [Hpl Hpb]. fold p in Hpl, Hpb.
  destruct (enc_loop_bytes p Hpl Hpb) as [Hel Heb].
  destruct (b64_roundtrip 4 (enc_loop p) Hel Heb) as [Hdec Hl].
  rewrite list_ascii_of_string_of_list_ascii, Hl, Hdec. cbn [Nat.eqb negb Nat.mul Nat.add].
  unfold decoded_plain. rewrite copy_whole by exact Hel.
  rewrite dec_enc_loop by exact Hpl.
  subst p. rewrite plain_shape by exact Hlen.
  do 6 (destruct marker as [| ? marker]; [discriminate Hlen |]).
  destruct marker; [| discriminate Hlen].
  cbn [le_bytes32 take app drop insert list_insert].
  rewrite <- (timestamp_value now now'). reflexivity.
Qed.

(** C10: [Decode] is a left inverse of [New] up to the documented
    truncations. For every 6-byte marker, decoding the identifier returned
    by [New] gives the IP made of marker bytes 2 to 5 and a time whose Unix
    seconds have the low 24 bits of the encoding-time seconds and, above
    them, bits 24 to 31 of the decode-time clock. The plain bytes that
    [Decode] recovers are those [New] started from with byte 9, the low
    sequence byte, set to zero; the two loops undo each other at every
    position other than 9. *)
Theorem Decode_left_inverse_of_New (marker : list Z) (now seq now' : Z) :
  length marker = 6%nat -> Forall is_byte marker ->
  let seq' := uint32 (seq + seqInc) in
  let p := plain now seq' marker in
  (exists ts,
      Decode now' (New now seq marker).1 = Some (take 4 (drop 2 marker), ts) /\
      ts mod 2 ^ 24 = now mod 2 ^ 24 /\
      ts / 2 ^ 24 = (now' / 2 ^ 24) mod 2 ^ 8) /\
  p !! 9%nat = Some (Z.land seq' 0xFF) /\
  decoded_plain (enc_loop p) = <[9%nat := 0]> p /\
  (forall i : nat, i <> 9%nat -> dec_loop (enc_loop p) !! i = p !! i).
Proof.
  intros Hlen Hb seq' p.
  destruct (plain_bytes now seq' marker Hlen Hb) as [Hpl Hpb]. fold p in Hpl.
  repeat split.
  - eexists. split; [apply Decode_New_value; assumption |].
    assert (H1 : 0 <= now mod 2 ^ 24 < 2 ^ 24) by (apply Z.mod_pos_bound; lia).
    change (2 ^ 24) with 16777216 in *.
    split; Z.div_mod_to_equations; lia.
  - subst p. rewrite plain_shape by exact Hlen.
    rewrite lookup_app_r by lia. rewrite Hlen. reflexivity.
  - unfold decoded_plain.
    rewrite copy_whole by (apply enc_loop_bytes; assumption).
    rewrite dec_enc_loop by exact Hpl. reflexivity.
  - intros i _. rewrite dec_enc_loop by exact Hpl. reflexivity.
Qed.

Lemma Decode_left_inverse_of_New_witness :
  let marker := [1; 2; 3; 4; 5; 6] in
  let p := plain 1700000000 (uint32 (5 + seqInc)) marker in
  (exists ts,
      Decode 1800000000 (New 1700000000 5 marker).1
      = Some (take 4 (drop 2 marker), ts) /\
      ts mod 2 ^ 24 = 1700000000 mod 2 ^ 24 /\
      ts / 2 ^ 24 = (1800000000 / 2 ^ 24) mod 2 ^ 8) /\
  p !! 9%nat = Some (Z.land (uint32 (5 + seqInc)) 0xFF) /\
  decoded_plain (enc_loop p) = <[9%nat := 0]> p /\
  (forall i : nat, i <> 9%nat -> dec_loop (enc_loop p) !! i = p !! i).
Proof.
  apply (Decode_left_inverse_of_New [1; 2; 3; 4; 5; 6] 1700000000 5 1800000000).
  - reflexivity.
  - unfold is_byte. repeat (apply Forall_cons_2; [lia |]). apply Forall_nil_2.
Defined.

End RandIDFacts.

Example New_example :
  RandID.New 1700000000 5 [1; 2; 3; 4; 5; 6] = ("pgJXBPUGpwMDAQEF"%string, 678).
Proof. reflexivity. Qed.

Example Decode_example :
  RandID.Decode 1800000000 "pgJXBPUGpwMDAQEF" = Some ([3; 4; 5; 6], 1800663296).
Proof. reflexivity. Qed.

(** * Facts about the liveness registry *)

Section LiverFacts.
Import Liver.

Lemma scan_Some now (l : list (string * option live)) key v :
  scan now l = Some (key, v) -> (key, v) ∈ l /\ died now v = true.
Proof.
  induction l as [| [k w] l IH]; cbn; [discriminate |].
  destruct (died now w) eqn:Hd.
  - intros [= -> ->]. split; [apply elem_of_cons; by left | exact Hd].
  - intros H. destruct (IH H) as [Hin Hdied]. split; [apply elem_of_cons; by right | assumption].
Qed.

Lemma scan_None now (l : list (string * option live)) :
  scan now l = None <-> forall key v, (key, v) ∈ l -> died now v = false.
Proof.
  induction l as [| [k w] l IH]; cbn.
  - split; [| reflexivity]. intros _ key v Hin. by apply elem_of_nil in Hin.
  - destruct (died now w) eqn:Hd.
    + split; [discriminate |]. intros H.
      rewrite (H k w) in Hd by apply elem_of_cons, or_introl, eq_refl.
      discriminate.
    + rewrite IH. split.
      * intros H key v Hin. apply elem_of_cons in Hin as [[= -> ->] | Hin];
          [exact Hd | eauto].
      * intros H key v Hin. apply (H key). apply elem_of_cons. by right.
Qed.

Lemma visits_lookup (d : data) order key v :
  visits d order -> (key, v) ∈ order <-> d !! key = Some v.
Proof.
  unfold visits. intros Hp. rewrite Hp. apply elem_of_map_to_list.
Qed.

Lemma died_spec now v :
  died now v = true <-> exists lc, v = Some lc /\ timeout lc < now - last lc.
Proof.
  destruct v as [lc |]; cbn.
  - rewrite Z.ltb_lt. split; [eauto |]. intros (lc' & [= <-] & H). exact H.
  - split; [discriminate |]. intros (lc & H & _). discriminate.
Qed.

(** The scan is fatal exactly when some entry has outlived its timeout,
    and the entry it reports is such an entry. *)
Lemma Schedule_fatal_iff (d : data) order now :
  visits d order ->
  is_Some (Schedule now order) <->
  exists key lc, d !! key = Some (Some lc) /\ timeout lc < now - last lc.
Proof.
  intros Hv. unfold Schedule. split.
  - intros [[key v] Hs]. apply scan_Some in Hs as [Hin Hd].
    apply died_spec in Hd as (lc & -> & Hlt).
    exists key, lc. split; [| exact Hlt]. by apply (visits_lookup d order).
  - intros (key & lc & Hl & Hlt).
    destruct (scan now order) as [r |] eqn:Hs; [eauto |].
    rewrite scan_None in Hs.
    assert (Hd : died now (Some lc) = false).
    { apply (Hs key). by apply (visits_lookup d order). }
    cbn in Hd. apply Z.ltb_ge in Hd. lia.
Qed.

Lemma Schedule_reports (d : data) order now key v :
  visits d order -> Schedule now order = Some (key, v) ->
  exists lc, v = Some lc /\ d !! key = Some (Some lc) /\
             timeout lc < now - last lc.
Proof.
  intros Hv Hs. apply scan_Some in Hs as [Hin Hd].
  apply died_spec in Hd as (lc & -> & Hlt).
  exists lc. repeat split; [| exact Hlt]. by apply (visits_lookup d order).
Qed.

(** C8: the watchdog scan is fatal for an entry exactly when the time
    since its last touch exceeds its timeout: an entry in that condition
    makes the scan end in [Fatal], and a key that the scan reports is in
    that condition. [Register] puts the last touch of the key at the
    instant of the call, so that the scan is fatal once the timeout has
    passed since then; [Cancel] removes the entry, after which no scan
    reports the key. *)
Theorem Liver_watchdog (d : data) (order : list (string * option live))
  (now : Z) :
  visits d order ->
  (forall key lc, d !! key = Some (Some lc) ->
     timeout lc < now - last lc -> is_Some (Schedule now order)) /\
  (forall key v, Schedule now order = Some (key, v) ->
     exists lc, v = Some lc /\ d !! key = Some (Some lc) /\
                timeout lc < now - last lc) /\
  (forall key lc, d !! key = Some (Some lc) ->
     now - last lc <= timeout lc ->
     forall k v, Schedule now order = Some (k, v) -> k <> key) /\
  (forall t0 key T,
     Register t0 key T d !! key = Some (Some (Live t0 T)) /\
     forall now' order', visits (Register t0 key T d) order' ->
       (T < now' - t0 -> is_Some (Schedule now' order')) /\
       (now' - t0 <= T ->
        forall k v, Schedule now' order' = Some (k, v) -> k <> key)) /\
  (forall key,
     (Cancel key d).1 !! key = None /\
     forall now' order', visits (Cancel key d).1 order' ->
       forall k v, Schedule now' order' = Some (k, v) ->
         k <> key /\ d !! k = Some v).
Proof.
  intros Hv. repeat split.
  - intros key lc Hl Hlt. apply (Schedule_fatal_iff d order now Hv). eauto.
  - intros key v. apply Schedule_reports, Hv.
  - intros key lc Hl Hle k v Hs ->.
    destruct (Schedule_reports d order now key v Hv Hs) as (lc' & -> & Hl' & Hlt).
    rewrite Hl in Hl'. injection Hl' as <-. lia.
  - unfold Register. apply lookup_insert_eq.
  - intros Hlt. apply (Schedule_fatal_iff _ order' now' H).
    exists key, (Live t0 T). split; [apply lookup_insert_eq | exact Hlt].
  - intros Hle k v Hs ->.
    destruct (Schedule_reports _ order' now' key v H Hs) as (lc' & -> & Hl' & Hlt).
    unfold Register in Hl'. rewrite lookup_insert_eq in Hl'.
    injection Hl' as <-. cbn in Hlt. lia.
  - cbn. apply lookup_delete_eq.
  - intros ->.
    destruct (Schedule_reports _ order' now' key v H H0) as (lc & -> & Hl & _).
    cbn in Hl. rewrite lookup_delete_eq in Hl. discriminate.
  - destruct (Schedule_reports _ order' now' k v H H0) as (lc & -> & Hl & _).
    cbn in Hl. apply lookup_delete_Some in Hl as [_ Hl]. exact Hl.
Qed.

Lemma Liver_watchdog_witness :
  let d : data := {[ "k"%string := Some (Live 0 10) ]} in
  (forall key lc, d !! key = Some (Some lc) ->
     timeout lc < 11 - last lc -> is_Some (Schedule 11 (map_to_list d))) /\
  Schedule 11 (map_to_list d) = Some ("k"%string, Some (Live 0 10)) /\
  Schedule 10 (map_to_list d) = None /\
  Schedule 11 (map_to_list (Cancel "k" d).1) = None.
Proof.
  intros d.
  pose proof (Liver_watchdog d (map_to_list d) 11 (reflexivity _)) as H.
  split; [exact (proj1 H) |]. repeat split; vm_compute; reflexivity.
Defined.

End LiverFacts.

(** * Facts about contexts *)

Lemma done_spec c : done c = true <-> exists e, err c = Some e.
Proof. unfold done. rewrite bool_decide_eq_true. reflexivity. Qed.

Lemma cancel_err (c : context) :
  err (cancel c)
  = match err c with Some e => Some e | None => Some Canceled end.
Proof. unfold cancel. destruct (err c) eqn:H; cbn; [exact H | reflexivity]. Qed.

Lemma done_cancel c : done (cancel c) = true.
Proof. apply done_spec. rewrite cancel_err. destruct (err c); eauto. Qed.

Lemma deadline_cancel c : deadline (cancel c) = deadline c.
Proof. unfold cancel. destruct (err c); reflexivity. Qed.

Lemma expire_err now c c' :
  expire now c = Some c' ->
  err c = None /\ err c' = Some DeadlineExceeded /\ deadline c' = deadline c.
Proof.
  unfold expire. destruct (deadline c) as [dl |], (err c); try discriminate.
  destruct (dl <=? now); [| discriminate]. intros [= <-]. auto.
Qed.

(** * Facts about the bounded parallel batch *)

Section OrchestratorFacts.
Import Orchestrator.

Variable fs : gmap string callback.








End OrchestratorFacts.



(** * Facts about the task machine *)

Section TaskFacts.
Import TaskCore.
Context {B : Type} (T : Tasker B).

(** ** Tactics *)

Ltac unfold_ops H :=
  unfold step, Fire, Task_Reload, Stop, stop_enter, stop_leave, run_deferred,
    loop_derive, derive_nap, loop_schedule, loop_fire, loop_retire,
    helper_recv, helper_accept, helper_accept_err, helper_fs_event,
    helper_fs_closed, chan_send, chan_close, tick, nap_expire, retire_expire,
    wake in H.

(** Splits a step [H : step T s a = Some s'] into the cases of the code
    it runs; the new state stays a composition of the operations. *)
Ltac step_cases H a :=
  destruct a; unfold_ops H;
  repeat (first [ progress simplify_eq | case_match ]).

(** Reads the fields of a state that the operations have built. *)
Ltac simp_state :=
  cbn [fst snd
       tasker tb t_id onceStop onceStart life nap fire retire routine helper
       now chan listener_open watcher_open reloadFuncs retireFuncs liver
       trace halted
       set_tasker set_tb set_t_id set_onceStop set_onceStart set_life set_nap
       set_fire set_retire set_routine set_helper set_now set_chan
       set_listener_open set_watcher_open set_reloadFuncs set_retireFuncs
       set_liver set_trace set_halted
       tType tb_id Name Log Trigger Argument Immediately Sleep
       set_Trigger set_Argument set_Immediately set_Sleep set_Name set_Log
       set_tb_id buf closed sent next sleep failure
       emit panic die absorb call_Schedule call_Reload call_Retire
       cancel_nap set_arg stop_begin RetireCancel ReloadCancel open_retire
       retired go_routine RetireRegister ReloadRegister new_watcher fatal
       initial Died].

Ltac simp_state_in H :=
  cbn [fst snd
       tasker tb t_id onceStop onceStart life nap fire retire routine helper
       now chan listener_open watcher_open reloadFuncs retireFuncs liver
       trace halted
       set_tasker set_tb set_t_id set_onceStop set_onceStart set_life set_nap
       set_fire set_retire set_routine set_helper set_now set_chan
       set_listener_open set_watcher_open set_reloadFuncs set_retireFuncs
       set_liver set_trace set_halted
       tType tb_id Name Log Trigger Argument Immediately Sleep
       set_Trigger set_Argument set_Immediately set_Sleep set_Name set_Log
       set_tb_id buf closed sent next sleep failure
       emit panic die absorb call_Schedule call_Reload call_Retire
       cancel_nap set_arg stop_begin RetireCancel ReloadCancel open_retire
       retired go_routine RetireRegister ReloadRegister new_watcher fatal
       initial Died] in H.

(** ** Runs *)

(** An invariant of the steps holds after every run. *)
Lemma run_invariant (I : State B -> Prop) :
  (forall s a s', I s -> step T s a = Some s' -> I s') ->
  forall acts s s', I s -> run T s acts = Some s' -> I s'.
Proof.
  intros Hstep. induction acts as [| a acts IH]; cbn; intros s s' Hi Hr.
  - by injection Hr as <-.
  - destruct (step T s a) as [s1 |] eqn:Hs; [| discriminate]. eauto.
Qed.

Lemma run_app acts1 : forall acts2 (s s1 s2 : State B),
  run T s acts1 = Some s1 -> run T s1 acts2 = Some s2 ->
  run T s (acts1 ++ acts2) = Some s2.
Proof.
  induction acts1 as [| a acts1 IH]; cbn; intros acts2 s s1 s2 H1 H2.
  - by injection H1 as ->.
  - destruct (step T s a); [eauto | discriminate].
Qed.

Lemma step_alive s a s' : step T s a = Some s' -> halted s = None.
Proof.
  unfold step. destruct (bool_decide (halted s = None)) eqn:Hh;
    [| discriminate].
  intros _. by apply bool_decide_eq_true in Hh.
Qed.

(** The type, the trigger and the identity of a task never change. *)
Lemma step_type s a s' :
  step T s a = Some s' ->
  tType (tb s') = tType (tb s) /\ Trigger (tb s') = Trigger (tb s) /\
  t_id s' = t_id s.
Proof.
  intros H. step_cases H a; simp_state; auto.
Qed.

(** A life that has ended stays ended. *)
Lemma step_Died s a s' :
  step T s a = Some s' -> Died s = true -> Died s' = true.
Proof.
  unfold Died. intros H Hd.
  step_cases H a; simp_state; auto using done_cancel.
Qed.

(** ** Traces *)

Lemma count_event_app ev (l1 l2 : list event) :
  count_event ev (l1 ++ l2) = (count_event ev l1 + count_event ev l2)%nat.
Proof. unfold count_event. rewrite filter_app. apply length_app. Qed.

Lemma count_event_absent ev (l : list event) :
  Forall (fun e => e <> ev) l -> count_event ev l = 0%nat.
Proof.
  unfold count_event. induction 1 as [| e l He _ IH]; [reflexivity |].
  rewrite filter_cons_False by exact He. exact IH.
Qed.

Lemma sched_args_app (l1 l2 : list event) :
  sched_args (l1 ++ l2) = sched_args l1 ++ sched_args l2.
Proof. unfold sched_args. apply omap_app. Qed.

(** [s'] continues the trace of [s] with events that satisfy [P]. *)
Definition extends (P : event -> Prop) (s s' : State B) : Prop :=
  exists evs, trace s' = trace s ++ evs /\ Forall P evs.

Lemma extends_refl P s : extends P s s.
Proof. exists []. split; [by rewrite app_nil_r | constructor]. Qed.

Lemma extends_trans P s1 s2 s3 :
  extends P s1 s2 -> extends P s2 s3 -> extends P s1 s3.
Proof.
  intros (e1 & H1 & F1) (e2 & H2 & F2). exists (e1 ++ e2).
  split; [by rewrite H2, H1, app_assoc | by apply Forall_app_2].
Qed.

Lemma extends_weaken (P Q : event -> Prop) s s' :
  (forall e, P e -> Q e) -> extends P s s' -> extends Q s s'.
Proof.
  intros HPQ (evs & H & F). exists evs. split; [exact H |].
  eapply Forall_impl; eassumption.
Qed.

(** Solves [extends P s s'] when the trace of [s'] is that of [s] with
    given events appended, and [P] holds of each by computation. *)
Ltac trace_ext :=
  unfold extends; simp_state; rewrite <- ?app_assoc;
  eexists; split;
  [ first [ reflexivity | symmetry; apply app_nil_r ]
  | repeat constructor; try discriminate; try congruence ].

(** No event but those of the Tasker: neither [Reload] nor [Retire] nor
    [Schedule] runs. *)
Definition silent (e : event) : Prop :=
  e <> EvReload /\ e <> EvRetire /\ forall a c, e <> EvSchedule a c.

Definition not_retire (e : event) : Prop := e <> EvRetire.
Definition not_reload (e : event) : Prop := e <> EvReload.

Lemma extends_count ev P s s' :
  (forall e, P e -> e <> ev) -> extends P s s' ->
  count_event ev (trace s') = count_event ev (trace s).
Proof.
  intros HP (evs & -> & F). rewrite count_event_app.
  rewrite (count_event_absent ev evs); [lia |].
  eapply Forall_impl; eassumption.
Qed.

(** ** Construction *)

Lemma done_WithCancel : done WithCancel = false.
Proof. reflexivity. Qed.

(** What [start()] leaves untouched, and what it may add to the trace. *)
Lemma start_frame w (s : State B) :
  let s' := (start T w s).1 in
  onceStop s' = onceStop s /\ retire s' = retire s /\ nap s' = nap s /\
  fire s' = fire s /\ helper s' = helper s /\ chan s' = chan s /\
  now s' = now s /\ liver s' = liver s /\ t_id s' = t_id s /\
  tType (tb s') = tType (tb s) /\ Immediately (tb s') = Immediately (tb s) /\
  extends (fun e => e <> EvReload /\ e <> EvRetire) s s'.
Proof.
  unfold start, start_run, first_fire.
  repeat case_match; simp_state; repeat split;
    try reflexivity; try assumption; trace_ext.
Qed.

(** The task as [newTask] hands it to [t.Start()]: [Reload] has run. *)
Definition reloaded (b : B) (tb0 : TaskBase) (w : Env) : State B :=
  set_onceStart true (call_Reload T (initial b tb0 w)).1.

Lemma newTask_unfold b tb0 w :
  newTask T b tb0 w
  = match failure (Reload T tb0 b) with
    | Some _ => fatal (call_Reload T (initial b tb0 w)).1
    | None =>
        if bool_decide (halted (start T w (reloaded b tb0 w)).1 = None)
        then emit [EvReturn CNewTask (start T w (reloaded b tb0 w)).2]
               (start T w (reloaded b tb0 w)).1
        else (start T w (reloaded b tb0 w)).1
    end.
Proof.
  unfold newTask, Task_Reload, Start, reloaded, wake. simp_state.
  destruct (failure (Reload T tb0 b)); reflexivity.
Qed.

(** A new task has not been stopped, and its trace begins with the one
    [Reload] of the construction. *)
Lemma newTask_fresh b tb0 w :
  let s0 := newTask T b tb0 w in
  onceStop s0 = StopIdle /\ retire s0 = None /\ nap s0 = None /\
  fire s0 = false /\ helper s0 = false /\
  chan s0 = MkChan (env_chan w) false (env_chan w) /\
  t_id s0 = Name tb0 +:+ "/" +:+ tb_id tb0 /\
  tType (tb s0) = tType tb0 /\
  exists evs, trace s0 = EvReload :: evs /\
              Forall (fun e => e <> EvReload /\ e <> EvRetire) evs.
Proof.
  cbv zeta. rewrite newTask_unfold.
  destruct (failure (Reload T tb0 b)) as [e |].
  { simp_state. repeat split; try reflexivity.
    eexists. split; [reflexivity |]. repeat constructor; discriminate. }
  pose proof (start_frame w (reloaded b tb0 w)) as Hf. cbv zeta in Hf.
  destruct Hf as (H1 & H2 & H3 & H4 & H5 & H6 & _ & _ & H9 & H10 & _
                  & evs & Htr & Hev).
  change (onceStop (reloaded b tb0 w)) with StopIdle in H1.
  change (retire (reloaded b tb0 w)) with (@None context) in H2.
  change (nap (reloaded b tb0 w)) with (@None context) in H3.
  change (fire (reloaded b tb0 w)) with false in H4.
  change (helper (reloaded b tb0 w)) with false in H5.
  change (chan (reloaded b tb0 w))
    with (MkChan (env_chan w) false (env_chan w)) in H6.
  change (t_id (reloaded b tb0 w))
    with (Name tb0 +:+ "/" +:+ tb_id tb0) in H9.
  change (tType (tb (reloaded b tb0 w))) with (tType tb0) in H10.
  change (trace (reloaded b tb0 w)) with [EvReload] in Htr.
  generalize dependent (start T w (reloaded b tb0 w)). intros r.
  intros H1 H2 H3 H4 H5 H6 H9 H10 Htr.
  destruct (bool_decide _); simp_state;
    rewrite H1, H2, H3, H4, H5, H6, H9, H10, Htr;
    (repeat split; try reflexivity);
    eexists; (split; [reflexivity |]); try exact Hev.
  apply Forall_app_2; [exact Hev |]. repeat constructor; discriminate.
Qed.

(** ** What a step adds to the trace *)

(** The events that action [a] may add: [Retire] runs only when the loop
    takes the branch of the ended life, [Reload] only in [t.Reload()],
    [Schedule] only in [t.Fire()] and when the loop fires. *)
Definition step_event (a : action) (e : event) : Prop :=
  (a <> LoopRetire -> e <> EvRetire) /\
  (a <> CallReload -> e <> EvReload) /\
  (a <> CallFire -> a <> LoopSchedule -> forall v c, e <> EvSchedule v c).

Lemma step_extends s a s' :
  step T s a = Some s' -> extends (step_event a) s s'.
Proof.
  intros H. step_cases H a; trace_ext.
  all: unfold step_event; repeat split; intros; congruence.
Qed.

Lemma step_sched_args s a s' :
  step T s a = Some s' -> a <> CallFire -> a <> LoopSchedule ->
  sched_args (trace s') = sched_args (trace s).
Proof.
  intros H H1 H2. destruct (step_extends _ _ _ H) as (evs & -> & F).
  rewrite sched_args_app.
  assert (Hn : sched_args evs = []); [| by rewrite Hn, app_nil_r].
  clear -F H1 H2. induction F as [| e l (_ & _ & He) _ IH]; [reflexivity |].
  unfold sched_args in *. cbn. rewrite IH.
  destruct e; try reflexivity. exfalso. by eapply He.
Qed.

(** ** Invariants of the machine *)

(** What holds of a task from [newTask] on: [t.retire] is made by
    [stop()] only; a task that was stopped has died and has left the
    registries; [Retire] has run at most once, and when it has, the loop
    has returned or the process has ended; [t.retire] is cancelled by the
    loop only. *)
Record task_inv (s : State B) : Prop := {
  tinv_idle : onceStop s = StopIdle -> retire s = None;
  tinv_stopped : onceStop s <> StopIdle -> Died s = true;
  tinv_unreg :
    onceStop s <> StopIdle ->
    retireFuncs s !! t_id s = None /\ reloadFuncs s !! t_id s = None;
  tinv_retire_count :
    count_event EvRetire (trace s) = 0%nat \/
    (count_event EvRetire (trace s) = 1%nat /\
     (routine s = LoopExited \/ halted s = Some Panic));
  tinv_canceled :
    forall c, retire s = Some c -> err c = Some Canceled ->
              routine s = LoopExited;
  tinv_exited :
    routine s = LoopExited -> count_event EvRetire (trace s) = 1%nat;
  tinv_retire_ctx :
    onceStop s <> StopIdle ->
    exists c dl, retire s = Some c /\ deadline c = Some dl /\
                 dl <= now s + stopTimeout
}.

Lemma step_exited s a s' :
  step T s a = Some s' -> routine s = LoopExited -> routine s' = LoopExited.
Proof. intros H Hr. step_cases H a; simp_state; congruence. Qed.

Lemma step_idle s a s' :
  step T s a = Some s' ->
  (onceStop s = StopIdle -> retire s = None) ->
  onceStop s' = StopIdle -> retire s' = None.
Proof.
  intros H Hi. step_cases H a; simp_state; try congruence; auto.
  all: intros Hs; specialize (Hi Hs); congruence.
Qed.

Lemma step_stopped s a s' :
  step T s a = Some s' ->
  (onceStop s <> StopIdle -> Died s = true) ->
  onceStop s' <> StopIdle -> Died s' = true.
Proof.
  unfold Died. intros H Hi.
  step_cases H a; simp_state; auto using done_cancel.
  all: intros _; apply Hi; congruence.
Qed.

Lemma step_unreg s a s' :
  step T s a = Some s' ->
  (onceStop s <> StopIdle ->
   retireFuncs s !! t_id s = None /\ reloadFuncs s !! t_id s = None) ->
  onceStop s' <> StopIdle ->
  retireFuncs s' !! t_id s' = None /\ reloadFuncs s' !! t_id s' = None.
Proof.
  intros H Hi. step_cases H a; simp_state; auto.
  all: try (intros _; apply Hi; congruence).
  all: intros _; split; apply lookup_delete_eq.
Qed.

Lemma step_retire_count s a s' :
  step T s a = Some s' ->
  (count_event EvRetire (trace s) = 0%nat \/
   (count_event EvRetire (trace s) = 1%nat /\
    (routine s = LoopExited \/ halted s = Some Panic))) ->
  count_event EvRetire (trace s') = 0%nat \/
  (count_event EvRetire (trace s') = 1%nat /\
   (routine s' = LoopExited \/ halted s' = Some Panic)).
Proof.
  intros H Hi. pose proof (step_alive _ _ _ H) as Hal.
  destruct (decide (a = LoopRetire)) as [-> | Hne].
  - destruct Hi as [H0 | (_ & [Hx | Hx])]; [| | congruence].
    + right. unfold step in H. rewrite bool_decide_eq_true_2 in H by exact Hal.
      unfold loop_retire in H. repeat case_match; simplify_eq; simp_state;
        rewrite !count_event_app, H0; (split; [reflexivity |]); auto.
    + unfold step in H. rewrite bool_decide_eq_true_2 in H by exact Hal.
      unfold loop_retire in H. rewrite Hx in H. discriminate.
  - assert (Hc : count_event EvRetire (trace s')
                 = count_event EvRetire (trace s)).
    { eapply extends_count; [| eapply step_extends; exact H].
      intros e (He & _). auto. }
    rewrite Hc. destruct Hi as [H0 | (H1 & [Hx | Hx])];
      [by left | | congruence].
    right. split; [exact H1 |]. left. eapply step_exited; eassumption.
Qed.

Lemma step_canceled s a s' :
  step T s a = Some s' ->
  (onceStop s = StopIdle -> retire s = None) ->
  (forall c, retire s = Some c -> err c = Some Canceled ->
             routine s = LoopExited) ->
  forall c, retire s' = Some c -> err c = Some Canceled ->
            routine s' = LoopExited.
Proof.
  intros H Hidle Hi.
  step_cases H a; simp_state; intros c' Hr He; simplify_eq; eauto.
  all: try match goal with
           | He : err (WithTimeout _ _) = Some Canceled |- _ =>
               unfold WithTimeout in He; cbn [err] in He;
               destruct (_ <=? _); discriminate
           | Hx : expire _ _ = Some _ |- _ =>
               apply expire_err in Hx as (_ & Hx & _); congruence
           end.
  all: try (specialize (Hi _ Hr He); congruence).
  all: try (specialize (Hidle ltac:(assumption)); congruence).
Qed.

Lemma step_exited_count s a s' :
  step T s a = Some s' ->
  (count_event EvRetire (trace s) = 0%nat \/
   (count_event EvRetire (trace s) = 1%nat /\
    (routine s = LoopExited \/ halted s = Some Panic))) ->
  (routine s = LoopExited -> count_event EvRetire (trace s) = 1%nat) ->
  routine s' = LoopExited -> count_event EvRetire (trace s') = 1%nat.
Proof.
  intros H Hc Hi Hr. pose proof (step_alive _ _ _ H) as Hal.
  destruct (step_retire_count _ _ _ H Hc) as [H0 | (H1 & _)]; [| exact H1].
  exfalso. destruct (decide (a = LoopRetire)) as [-> | Hne].
  - unfold step in H. rewrite bool_decide_eq_true_2 in H by exact Hal.
    unfold loop_retire in H. repeat case_match; simplify_eq.
    + revert H0. simp_state. rewrite !count_event_app.
      change (count_event EvRetire [EvRetire]) with 1%nat. lia.
    + revert Hr. simp_state. congruence.
  - assert (Hc' : count_event EvRetire (trace s')
                  = count_event EvRetire (trace s)).
    { eapply extends_count; [| eapply step_extends; exact H].
      intros e (He & _). auto. }
    assert (Hr0 : routine s = LoopExited).
    { clear -H Hr Hne. step_cases H a; revert Hr; simp_state; congruence. }
    specialize (Hi Hr0). lia.
Qed.

Lemma step_retire_ctx s a s' :
  step T s a = Some s' ->
  (onceStop s <> StopIdle ->
   exists c dl, retire s = Some c /\ deadline c = Some dl /\
                dl <= now s + stopTimeout) ->
  onceStop s' <> StopIdle ->
  exists c dl, retire s' = Some c /\ deadline c = Some dl /\
               dl <= now s' + stopTimeout.
Proof.
  intros H Hi. step_cases H a; simp_state; auto.
  all: try (intros _; eexists _, _; split; [reflexivity |];
            split; [reflexivity | lia]).
  all: intros Hs; destruct Hi as (c1 & dl & Hc & Hd & Hle); [congruence |];
    simplify_eq.
  all: try (eexists _, _; split; [first [eassumption | reflexivity] |];
            rewrite ?deadline_cancel; split; [eassumption |];
            first [ assumption
                  | match goal with
                    | Hx : (0 <=? _) = true |- _ => apply Z.leb_le in Hx; lia
                    end ]).
  all: match goal with
       | Hx : expire _ _ = Some _ |- _ =>
           apply expire_err in Hx as (_ & _ & Hx);
           eexists _, _; split; [reflexivity |];
           split; [rewrite Hx; eassumption | assumption]
       end.
Qed.

Lemma step_task_inv s a s' :
  task_inv s -> step T s a = Some s' -> task_inv s'.
Proof.
  intros [H1 H2 H3 H4 H5 H6 H7] H. split.
  - eapply step_idle; eassumption.
  - eapply step_stopped; eassumption.
  - eapply step_unreg; eassumption.
  - eapply step_retire_count; eassumption.
  - eapply step_canceled; eassumption.
  - eapply step_exited_count; eassumption.
  - eapply step_retire_ctx; eassumption.
Qed.

Lemma start_routine w (s : State B) :
  routine (start T w s).1 = routine s \/ routine (start T w s).1 = LoopTop.
Proof.
  unfold start, start_run, first_fire.
  repeat case_match; simp_state; auto.
Qed.

(** [newTask] leaves the task without a goroutine or with its goroutine
    at the head of the loop. *)
Lemma newTask_routine b tb0 w :
  routine (newTask T b tb0 w) = NoLoop \/
  routine (newTask T b tb0 w) = LoopTop.
Proof.
  rewrite newTask_unfold.
  destruct (failure (Reload T tb0 b)) as [e |]; [by left |].
  pose proof (start_routine w (reloaded b tb0 w)) as Hr.
  change (routine (reloaded b tb0 w)) with NoLoop in Hr.
  generalize dependent (start T w (reloaded b tb0 w)). intros r Hr.
  destruct (bool_decide _); simp_state; exact Hr.
Qed.

(** The states that a task passes through once [newTask] has made it. *)
Definition reachable (s : State B) : Prop :=
  exists b tb0 w acts, run T (newTask T b tb0 w) acts = Some s.

Lemma newTask_inv b tb0 w : task_inv (newTask T b tb0 w).
Proof.
  pose proof (newTask_fresh b tb0 w) as Hf. cbv zeta in Hf.
  destruct Hf as (H1 & H2 & _ & _ & _ & _ & _ & _ & evs & Htr & Hev).
  split.
  - intros _. exact H2.
  - intros Hn. contradiction.
  - intros Hn. contradiction.
  - left. rewrite Htr.
    apply (count_event_absent EvRetire (EvReload :: evs)).
    constructor; [discriminate |].
    eapply Forall_impl; [exact Hev |]. intros e [_ He]. exact He.
  - intros c Hc. congruence.
  - intros Hx. destruct (newTask_routine b tb0 w); congruence.
  - intros Hn. contradiction.
Qed.

Lemma reachable_inv s : reachable s -> task_inv s.
Proof.
  intros (b & tb0 & w & acts & Hr).
  eapply (run_invariant task_inv); [| apply newTask_inv | exact Hr].
  intros s1 a s2 Hi Hs. eapply step_task_inv; eassumption.
Qed.

Lemma reachable_step s a s' :
  reachable s -> step T s a = Some s' -> reachable s'.
Proof.
  intros (b & tb0 & w & acts & Hr) Hs. exists b, tb0, w, (acts ++ [a]).
  eapply run_app; [exact Hr |]. cbn. by rewrite Hs.
Qed.

Lemma reachable_run s acts s' :
  reachable s -> run T s acts = Some s' -> reachable s'.
Proof.
  intros (b & tb0 & w & acts0 & Hr) Hs. exists b, tb0, w, (acts0 ++ acts).
  eapply run_app; eassumption.
Qed.

(** ** Stopping *)

(** Once the first [Stop()] has returned the task has died and is in
    neither registry, and a further [Stop()] returns nil at once: it adds
    its return to the trace and changes nothing else. *)
Theorem Stop_after_return (s : State B) :
  reachable s -> halted s = None -> onceStop s = StopReturned ->
  Died s = true /\
  retireFuncs s !! t_id s = None /\ reloadFuncs s !! t_id s = None /\
  step T s CallStop = Some (emit [EvReturn CStop None] s) /\
  forall acts s', run T s acts = Some s' ->
    onceStop s' = StopReturned /\ Died s' = true /\
    retireFuncs s' !! t_id s' = None /\ reloadFuncs s' !! t_id s' = None.
Proof.
  intros Hr Hh Hs. pose proof (reachable_inv s Hr) as Hi.
  assert (Hne : onceStop s <> StopIdle) by congruence.
  split; [exact (tinv_stopped s Hi Hne) |].
  split; [exact (proj1 (tinv_unreg s Hi Hne)) |].
  split; [exact (proj2 (tinv_unreg s Hi Hne)) |].
  split.
  - unfold step. rewrite bool_decide_eq_true_2 by exact Hh.
    unfold Stop. rewrite Hs. reflexivity.
  - intros acts s' Hrun.
    assert (Hs' : onceStop s' = StopReturned).
    { revert Hrun. apply (run_invariant (fun x => onceStop x = StopReturned));
        [| exact Hs].
      clear. intros s a s' Hs H. step_cases H a; simp_state; congruence. }
    pose proof (reachable_inv s' (reachable_run _ _ _ Hr Hrun)) as Hi'.
    assert (Hne' : onceStop s' <> StopIdle) by congruence.
    split; [exact Hs' |]. split; [exact (tinv_stopped s' Hi' Hne') |].
    exact (tinv_unreg s' Hi' Hne').
Qed.


Lemma run_deferred_frame d (s s1 : State B) :
  run_deferred d s = Some s1 ->
  halted s1 = halted s /\ onceStop s1 = onceStop s /\
  retire s1 = retire s /\ t_id s1 = t_id s /\ now s1 = now s.
Proof.
  unfold run_deferred. repeat case_match; intros; simplify_eq; auto.
Qed.

(** While [stop()] waits, a second [Stop()] waits with it, and the wait
    lasts as long as [t.retire] is not done. When it is done, the deferred
    call runs and [Stop()] returns: nil only if the loop has run [Retire]
    and returned, and the timeout error whenever the loop has not
    returned. The deadline of [t.retire] is never more than three seconds
    away. *)
Theorem Stop_wait_and_return (s : State B) (d : option teardown) :
  reachable s -> halted s = None -> onceStop s = StopWaiting d ->
  exists c dl,
    retire s = Some c /\ deadline c = Some dl /\
    dl <= now s + 3 * Second /\
    step T s CallStop = None /\
    (err c = None -> step T s StopWake = None) /\
    (forall e s1, err c = Some e -> run_deferred d s = Some s1 ->
       step T s StopWake
       = Some (emit [EvReturn CStop (stop_result (t_id s) e)]
                 (set_onceStop StopReturned s1)) /\
       (stop_result (t_id s) e = None ->
        routine s = LoopExited /\
        count_event EvRetire (trace s) = 1%nat) /\
       (routine s <> LoopExited ->
        stop_result (t_id s) e = Some (StopTimeout (t_id s)))).
Proof.
  intros Hr Hh Hs. pose proof (reachable_inv s Hr) as Hi.
  destruct (tinv_retire_ctx s Hi) as (c & dl & Hc & Hd & Hle); [congruence |].
  exists c, dl. split; [exact Hc |]. split; [exact Hd |].
  split; [exact Hle |]. split; [| split].
  - unfold step, Stop. rewrite bool_decide_eq_true_2, Hs by exact Hh.
    reflexivity.
  - intros He. unfold step, stop_leave.
    rewrite bool_decide_eq_true_2, Hs, Hc, He by exact Hh. reflexivity.
  - intros e s1 He Hs1. split; [| split].
    + unfold step, stop_leave.
      rewrite bool_decide_eq_true_2, Hs, Hc, He, Hs1 by exact Hh.
      reflexivity.
    + intros Hres.
      assert (Hx : routine s = LoopExited).
      { apply (tinv_canceled s Hi c Hc). rewrite He.
        destruct e; [reflexivity | discriminate]. }
      split; [exact Hx | exact (tinv_exited s Hi Hx)].
    + intros Hne. destruct e; [| reflexivity]. exfalso. apply Hne.
      exact (tinv_canceled s Hi c Hc He).
Qed.

Lemma step_Tick (s : State B) dt :
  halted s = None -> 0 <= dt ->
  step T s (Tick dt) = Some (set_now (now s + dt) s).
Proof.
  intros Hh Hdt. unfold step, tick.
  rewrite bool_decide_eq_true_2 by exact Hh.
  replace (0 <=? dt) with true by (symmetry; apply Z.leb_le; lia).
  reflexivity.
Qed.

Lemma step_RetireExpire (s : State B) c dl :
  halted s = None -> retire s = Some c -> deadline c = Some dl ->
  err c = None -> dl <= now s ->
  step T s RetireExpire
  = Some (set_retire (Some (Context (Some dl) (Some DeadlineExceeded))) s).
Proof.
  intros Hh Hc Hd He Hle. unfold step, retire_expire, expire.
  rewrite bool_decide_eq_true_2, Hc, Hd, He by exact Hh.
  replace (dl <=? now s) with true by (symmetry; apply Z.leb_le; lia).
  reflexivity.
Qed.

Lemma step_StopWake (s s1 : State B) d c e :
  halted s = None -> onceStop s = StopWaiting d -> retire s = Some c ->
  err c = Some e -> run_deferred d s = Some s1 ->
  step T s StopWake
  = Some (emit [EvReturn CStop (stop_result (t_id s) e)]
            (set_onceStop StopReturned s1)).
Proof.
  intros Hh Hs Hc He Hs1. unfold step, stop_leave.
  rewrite bool_decide_eq_true_2, Hs, Hc, He, Hs1 by exact Hh. reflexivity.
Qed.

Lemma run_deferred_defined d (s : State B) :
  d <> Some (CloseWatcher false) -> exists s1, run_deferred d s = Some s1.
Proof.
  intros Hd. unfold run_deferred.
  destruct d as [[| [|] |] |]; eauto; congruence.
Qed.

(** [Stop()] is bounded: whatever the loop does, the passing of at most
    three seconds lets [stop()] leave its wait and return. *)
Theorem Stop_bounded (s : State B) (d : option teardown) :
  reachable s -> halted s = None -> onceStop s = StopWaiting d ->
  d <> Some (CloseWatcher false) ->
  exists dt s2,
    0 <= dt <= 3 * Second /\
    (run T s [StopWake] = Some s2 \/
     run T s [Tick dt; RetireExpire; StopWake] = Some s2) /\
    onceStop s2 = StopReturned /\ halted s2 = None.
Proof.
  intros Hr Hh Hs Hd. pose proof (reachable_inv s Hr) as Hi.
  destruct (tinv_retire_ctx s Hi) as (c & dl & Hc & Hdl & Hle); [congruence |].
  destruct (err c) as [e |] eqn:He.
  - destruct (run_deferred_defined d s Hd) as (s1 & Hs1).
    exists 0, (emit [EvReturn CStop (stop_result (t_id s) e)]
                 (set_onceStop StopReturned s1)).
    split; [unfold Second; lia |]. split; [| split].
    + left. cbn [run].
      rewrite (step_StopWake s s1 d c e) by assumption. reflexivity.
    + reflexivity.
    + simp_state. destruct (run_deferred_frame _ _ _ Hs1) as (-> & _).
      exact Hh.
  - set (dt := Z.max 0 (dl - now s)).
    assert (Hdt : 0 <= dt /\ dl <= now s + dt /\ dt <= 3 * Second)
      by (unfold dt, stopTimeout, Second in *; lia).
    destruct Hdt as (Hdt0 & Hdt1 & Hdt2). clearbody dt.
    set (st := set_now (now s + dt) s).
    set (c' := Context (Some dl) (Some DeadlineExceeded)).
    set (sa := set_retire (Some c') st).
    destruct (run_deferred_defined d sa Hd) as (s3 & Hs3).
    exists dt, (emit [EvReturn CStop (stop_result (t_id sa) DeadlineExceeded)]
                  (set_onceStop StopReturned s3)).
    split; [lia |]. split; [| split].
    + right. cbn [run]. rewrite (step_Tick s dt Hh Hdt0). fold st.
      rewrite (step_RetireExpire st c dl Hh Hc Hdl He Hdt1). fold c'. fold sa.
      rewrite (step_StopWake sa s3 d c' DeadlineExceeded Hh Hs eq_refl eq_refl
                 Hs3).
      reflexivity.
    + reflexivity.
    + simp_state. destruct (run_deferred_frame _ _ _ Hs3) as (-> & _).
      exact Hh.
Qed.

(** ** The discipline of the loop and its helper *)

(** The types whose loop starts a helper goroutine, and those whose nap
    is woken through [t.fire]. *)
Definition has_helper (ty : taskType) : bool :=
  match ty with
  | taskTypeOnTCP | taskTypeOnChannel | taskTypeOnFsChange => true
  | _ => false
  end.

Definition has_loop (ty : taskType) : bool :=
  match ty with
  | taskTypeManual | taskTypeOnetime => false
  | _ => true
  end.

(** A one-shot or manual task has no goroutine; a task without goroutine
    has no nap; a helper waits only while the nap it will end is open;
    [t.fire] is set only for the types without helper; and when a loop
    with a helper type sits at its [select] with an open nap and no
    helper, the helper has ended the life of the task. *)
Record loop_inv (s : State B) : Prop := {
  linv_noloop : has_loop (tType (tb s)) = false -> routine s = NoLoop;
  linv_idle :
    routine s = NoLoop -> helper s = false /\ nap s = None /\ fire s = false;
  linv_top : routine s = LoopTop -> helper s = false;
  linv_select : routine s = LoopSelect -> is_Some (nap s);
  linv_fire :
    routine s = LoopSelect -> has_helper (tType (tb s)) = false ->
    fire s = true;
  linv_nofire : has_helper (tType (tb s)) = true -> fire s = false;
  linv_helper :
    helper s = true ->
    has_helper (tType (tb s)) = true /\
    exists c, nap s = Some c /\ err c = None;
  linv_nap :
    has_helper (tType (tb s)) = true ->
    forall c, nap s = Some c -> deadline c = None;
  linv_gone :
    routine s = LoopSelect -> has_helper (tType (tb s)) = true ->
    helper s = false ->
    forall c, nap s = Some c -> err c = None -> Died s = true
}.

Ltac type_facts :=
  repeat match goal with
         | H : tType (tb ?s) = _ |- _ => rewrite ?H in *; clear H
         end;
  cbn [has_helper has_loop] in *.

(** Reads the fields of built states in the equations at hand. *)
Ltac simp_hyps :=
  repeat match goal with
         | Hx : _ = _ |- _ => progress simp_state_in Hx
         end.

Lemma step_linv_noloop s a s' :
  step T s a = Some s' ->
  (has_loop (tType (tb s)) = false -> routine s = NoLoop) ->
  has_loop (tType (tb s')) = false -> routine s' = NoLoop.
Proof.
  intros H L1. step_cases H a; simp_state; try assumption.
  all: intros Hl; type_facts; try discriminate.
  all: specialize (L1 ltac:(assumption)); congruence.
Qed.

Lemma step_linv_idle s a s' :
  step T s a = Some s' ->
  (routine s = NoLoop ->
   helper s = false /\ nap s = None /\ fire s = false) ->
  routine s' = NoLoop ->
  helper s' = false /\ nap s' = None /\ fire s' = false.
Proof.
  intros H L2. step_cases H a; simp_state; try assumption.
  all: intros Hr; try discriminate.
  all: destruct (L2 ltac:(congruence)) as (Ha & Hb & Hc).
  all: rewrite ?Ha, ?Hb, ?Hc in *; try discriminate.
  all: repeat split; try reflexivity; congruence.
Qed.


Lemma step_linv_top s a s' :
  step T s a = Some s' ->
  (routine s = LoopTop -> helper s = false) ->
  (helper s = true ->
   has_helper (tType (tb s)) = true /\
   exists c, nap s = Some c /\ err c = None) ->
  routine s' = LoopTop -> helper s' = false.
Proof.
  intros H L3 L7. step_cases H a; simp_state; try assumption.
  all: intros Hr; try discriminate; try reflexivity.
  all: try (apply L3; congruence).
  all: destruct (helper _) eqn:Hh; [exfalso | reflexivity].
  all: destruct (L7 eq_refl) as (_ & c' & Hc & He).
  all: match goal with
       | Hd : done ?c = true |- _ =>
           apply done_spec in Hd as (? & Hd); congruence
       end.
Qed.

Lemma step_linv_select s a s' :
  step T s a = Some s' ->
  (routine s = LoopSelect -> is_Some (nap s)) ->
  routine s' = LoopSelect -> is_Some (nap s').
Proof.
  intros H L4. step_cases H a; simp_state; try assumption.
  all: intros Hr; try discriminate; try congruence; eauto.
  all: destruct (L4 ltac:(congruence)) as (? & Hn); rewrite Hn; cbn; eauto.
Qed.

Lemma step_linv_fire s a s' :
  step T s a = Some s' ->
  (has_loop (tType (tb s)) = false -> routine s = NoLoop) ->
  (routine s = LoopSelect -> has_helper (tType (tb s)) = false ->
   fire s = true) ->
  routine s' = LoopSelect -> has_helper (tType (tb s')) = false ->
  fire s' = true.
Proof.
  intros H L1 L5. step_cases H a; simp_state; try assumption.
  all: intros Hr Hn; try discriminate; try reflexivity; type_facts;
    try discriminate.
  all: try congruence.
  all: try (apply L5; congruence).
  all: try (specialize (L1 eq_refl); congruence).
  all: specialize (L5 ltac:(congruence) ltac:(assumption)); congruence.
Qed.

Lemma step_linv_nofire s a s' :
  step T s a = Some s' ->
  (has_helper (tType (tb s)) = true -> fire s = false) ->
  has_helper (tType (tb s')) = true -> fire s' = false.
Proof.
  intros H L6. step_cases H a; simp_state; try assumption.
  all: intros Hn; type_facts; try discriminate.
  all: specialize (L6 ltac:(first [assumption | reflexivity])); congruence.
Qed.

Lemma step_linv_nap s a s' :
  step T s a = Some s' ->
  (has_helper (tType (tb s)) = true ->
   forall c, nap s = Some c -> deadline c = None) ->
  has_helper (tType (tb s')) = true ->
  forall c, nap s' = Some c -> deadline c = None.
Proof.
  intros H L8. step_cases H a; simp_state; try assumption.
  all: intros Hn c' Hc; type_facts; try discriminate; simplify_eq;
    try reflexivity.
  all: try (eapply L8; [first [assumption | reflexivity]
                       | first [eassumption | reflexivity]]).
  all: try match goal with
           | Hx : expire _ _ = Some _ |- _ =>
               apply expire_err in Hx as (_ & _ & ->); eapply L8; eauto
           end.
  all: destruct (nap _) as [c0 |] eqn:Hc0; simplify_eq/=;
    rewrite deadline_cancel; eapply L8; eauto.
Qed.

Lemma step_linv_helper s a s' :
  step T s a = Some s' ->
  (has_helper (tType (tb s)) = true -> fire s = false) ->
  (has_helper (tType (tb s)) = true ->
   forall c, nap s = Some c -> deadline c = None) ->
  (helper s = true ->
   has_helper (tType (tb s)) = true /\
   exists c, nap s = Some c /\ err c = None) ->
  helper s' = true ->
  has_helper (tType (tb s')) = true /\
  exists c, nap s' = Some c /\ err c = None.
Proof.
  intros H L6 L8 L7. step_cases H a; simp_state; try assumption.
  all: intros Hh; try discriminate.
  all: try (type_facts; split; [reflexivity | eexists; split; reflexivity]).
  all: destruct (L7 ltac:(first [assumption | reflexivity]))
         as (Ht & c' & Hc & He).
  all: try (split; [exact Ht | eauto]).
  all: try (type_facts; discriminate).
  all: simp_hyps.
  all: try (specialize (L6 Ht); congruence).
  all: try match goal with
           | Hd : done ?c = true |- _ =>
               apply done_spec in Hd as (? & Hd); congruence
           end.
  all: try (specialize (L8 Ht _ Hc);
            match goal with
            | Hx : expire _ _ = Some _ |- _ =>
                unfold expire in Hx; simplify_eq; rewrite L8 in Hx;
                discriminate
            end).
Qed.

Ltac split_andb :=
  repeat match goal with
         | Hx : _ && _ = true |- _ => apply andb_true_iff in Hx as [? ?]
         end.

Lemma step_linv_gone s a s' :
  step T s a = Some s' ->
  (has_helper (tType (tb s)) = true -> fire s = false) ->
  (has_helper (tType (tb s)) = true ->
   forall c, nap s = Some c -> deadline c = None) ->
  (routine s = LoopSelect -> has_helper (tType (tb s)) = true ->
   helper s = false ->
   forall c, nap s = Some c -> err c = None -> Died s = true) ->
  routine s' = LoopSelect -> has_helper (tType (tb s')) = true ->
  helper s' = false ->
  forall c, nap s' = Some c -> err c = None -> Died s' = true.
Proof.
  unfold Died. intros H L6 L8 L9.
  step_cases H a; simp_state; try assumption.
  all: intros Hr Ht Hh c' Hc He; try discriminate; try congruence.
  all: try apply done_cancel.
  all: split_andb; simp_hyps; try congruence.
  all: try (type_facts; discriminate).
  all: try (eapply L9; eauto; congruence).
  all: try (specialize (L6 Ht); congruence).
  all: try (destruct (nap _) as [c0 |] eqn:Hc0; simplify_eq/=;
            rewrite cancel_err in He; destruct (err c0); discriminate).
  all: match goal with
       | Hx : expire _ _ = Some _ |- _ =>
           unfold expire in Hx;
           rewrite (L8 Ht _ ltac:(first [eassumption | reflexivity])) in Hx;
           discriminate
       end.
Qed.

Lemma step_loop_inv s a s' :
  loop_inv s -> step T s a = Some s' -> loop_inv s'.
Proof.
  intros [L1 L2 L3 L4 L5 L6 L7 L8 L9] H. split.
  - eapply step_linv_noloop; eassumption.
  - eapply step_linv_idle; eassumption.
  - eapply step_linv_top; eassumption.
  - eapply step_linv_select; eassumption.
  - eapply step_linv_fire; eassumption.
  - eapply step_linv_nofire; eassumption.
  - eapply step_linv_helper; eassumption.
  - eapply step_linv_nap; eassumption.
  - eapply step_linv_gone; eassumption.
Qed.

(** [start()] gives a goroutine to exactly the types that loop, unless it
    fails. *)
Lemma start_loop w (s : State B) :
  routine s = NoLoop -> helper s = false -> nap s = None ->
  fire s = false ->
  let s' := (start T w s).1 in
  helper s' = false /\ nap s' = None /\ fire s' = false /\
  (routine s' = NoLoop \/
   (routine s' = LoopTop /\ has_loop (tType (tb s')) = true)).
Proof.
  intros Hr Hh Hn Hf. unfold start, start_run, first_fire.
  repeat case_match; simp_state; repeat split; try assumption; auto.
  all: right; split; [reflexivity |]; type_facts; reflexivity.
Qed.

Lemma newTask_loop_inv b tb0 w : loop_inv (newTask T b tb0 w).
Proof.
  rewrite newTask_unfold.
  destruct (failure (Reload T tb0 b)) as [e |].
  { split; simp_state; intros; try discriminate; auto. }
  pose proof (start_loop w (reloaded b tb0 w) eq_refl eq_refl eq_refl eq_refl)
    as Hs. cbv zeta in Hs.
  generalize dependent (start T w (reloaded b tb0 w)). intros r Hs.
  assert (Hl : loop_inv r.1).
  { destruct Hs as (Hh & Hn & Hf & Hr). split.
    - intros Hx. destruct Hr as [Hr | [_ Hr]]; congruence.
    - auto.
    - auto.
    - intros Hx. destruct Hr as [Hr | [Hr _]]; congruence.
    - intros Hx. destruct Hr as [Hr | [Hr _]]; congruence.
    - auto.
    - intros Hx. congruence.
    - intros _ c Hc. congruence.
    - intros Hx. destruct Hr as [Hr | [Hr _]]; congruence. }
  destruct (bool_decide _); [| exact Hl].
  destruct Hl as [L1 L2 L3 L4 L5 L6 L7 L8 L9]. split; simp_state; assumption.
Qed.

Lemma reachable_loop_inv s : reachable s -> loop_inv s.
Proof.
  intros (b & tb0 & w & acts & Hr).
  eapply (run_invariant loop_inv); [| apply newTask_loop_inv | exact Hr].
  intros s1 a s2 Hi Hs. eapply step_loop_inv; eassumption.
Qed.

(** ** Fire and the loop *)

Lemma step_noloop_sched s a s' :
  step T s a = Some s' -> routine s = NoLoop -> a <> CallFire ->
  sched_args (trace s') = sched_args (trace s).
Proof.
  intros H Hr Ha. apply (step_sched_args _ _ _ H Ha).
  intros ->. unfold step, loop_schedule in H. rewrite Hr in H.
  destruct (bool_decide _); discriminate.
Qed.

(** A manual or one-shot task has no goroutine, and [Schedule] runs for
    it only inside [Fire()]: a run without [Fire()] adds no call. On a
    manual task that is alive [Fire()] runs [Schedule] once and returns
    its error; on a task that has died it returns an error and runs
    nothing. *)
Theorem Schedule_only_in_Fire (s : State B) :
  reachable s -> has_loop (tType (tb s)) = false ->
  routine s = NoLoop /\
  (forall acts s', run T s acts = Some s' -> CallFire ∉ acts ->
     sched_args (trace s') = sched_args (trace s)) /\
  (halted s = None -> tType (tb s) = taskTypeManual -> Died s = false ->
   step T s CallFire
   = Some (emit [EvReturn CFire (failure (Schedule T (tb s) (tasker s)))]
             (call_Schedule T LifeCtx s).1)) /\
  (halted s = None -> Died s = true ->
   step T s CallFire = Some (emit [EvReturn CFire (Some FireDied)] s)).
Proof.
  intros Hr Hl. pose proof (reachable_loop_inv s Hr) as Hi.
  split; [exact (linv_noloop s Hi Hl) |]. split; [| split].
  - intros acts. revert s Hr Hl Hi.
    induction acts as [| a acts IH]; intros s Hr Hl Hi s' Hrun Hnf.
    + cbn in Hrun. by injection Hrun as <-.
    + cbn in Hrun. destruct (step T s a) as [s1 |] eqn:Hs; [| discriminate].
      assert (Ha : a <> CallFire) by (intros ->; apply Hnf; left).
      rewrite (IH s1); try assumption.
      * apply (step_noloop_sched _ _ _ Hs (linv_noloop s Hi Hl) Ha).
      * eapply reachable_step; eassumption.
      * destruct (step_type _ _ _ Hs) as (-> & _). exact Hl.
      * apply reachable_loop_inv. eapply reachable_step; eassumption.
      * intros Hin. apply Hnf. by right.
  - intros Hh Hm Hd. unfold step, Fire.
    rewrite bool_decide_eq_true_2, Hd by exact Hh.
    destruct (decide _); [reflexivity | contradiction].
  - intros Hh Hd. unfold step, Fire.
    rewrite bool_decide_eq_true_2, Hd by exact Hh. reflexivity.
Qed.

(** [Fire()] on an interval or reload task whose loop waits at its
    [select] ends the nap, so that the loop can fire; for a reload task
    the loop then runs [Schedule] on the life context and is back at its
    head. *)
Theorem Fire_wakes_loop (s : State B) :
  reachable s -> halted s = None -> routine s = LoopSelect ->
  has_helper (tType (tb s)) = false -> Died s = false ->
  exists s1 c,
    step T s CallFire = Some s1 /\
    trace s1 = trace s ++ [EvReturn CFire None] /\
    nap s1 = Some c /\ done c = true /\
    (tType (tb s) = taskTypeOnReload ->
     exists s2, step T s1 LoopSchedule = Some s2 /\
       trace s2 = trace s1 ++ [EvSchedule (Argument (tb s)) LifeCtx] /\
       routine s2 = LoopTop).
Proof.
  intros Hr Hh Hsel Ht Hd. pose proof (reachable_loop_inv s Hr) as Hi.
  pose proof (linv_fire s Hi Hsel Ht) as Hf.
  destruct (linv_select s Hi Hsel) as (c & Hc).
  assert (Hm : tType (tb s) <> taskTypeManual).
  { intros Hm. assert (Hn : routine s = NoLoop)
      by (apply (linv_noloop s Hi); rewrite Hm; reflexivity).
    congruence. }
  exists (emit [EvReturn CFire None] (set_nap (Some (cancel c)) s)), (cancel c).
  split; [| split; [reflexivity | split; [reflexivity | split]]].
  - unfold step, Fire, wake.
    rewrite bool_decide_eq_true_2, Hd, Hf, Hc by exact Hh.
    destruct (decide _); [contradiction | reflexivity].
  - apply done_cancel.
  - intros Hrel. eexists. split; [| split].
    + unfold step, loop_schedule, loop_fire. simp_state.
      rewrite bool_decide_eq_true_2, Hsel, done_cancel, Hrel by exact Hh.
      destruct (decide _); [discriminate | reflexivity].
    + simp_state. rewrite <- app_assoc. reflexivity.
    + reflexivity.
Qed.

(** [Fire()] and [Reload()] never wake an accept, channel or watcher
    task: [t.fire] is not set for these types, so that [Fire()] on a task
    that is alive returns nil and changes nothing, and [Reload()] runs the
    Tasker's [Reload] and leaves the nap as it is. *)
Theorem Fire_idle_with_helper (s : State B) :
  reachable s -> halted s = None -> has_helper (tType (tb s)) = true ->
  (Died s = false ->
   step T s CallFire = Some (emit [EvReturn CFire None] s)) /\
  step T s CallReload
  = Some (emit [EvReturn CReload (failure (Reload T (tb s) (tasker s)))]
            (call_Reload T s).1).
Proof.
  intros Hr Hh Ht. pose proof (reachable_loop_inv s Hr) as Hi.
  pose proof (linv_nofire s Hi Ht) as Hf. split.
  - intros Hd. unfold step, Fire, wake.
    rewrite bool_decide_eq_true_2, Hd, Hf by exact Hh.
    destruct (decide _) as [Hm | _]; [| reflexivity].
    rewrite Hm in Ht. discriminate.
  - unfold step, Task_Reload, wake. simp_state.
    rewrite bool_decide_eq_true_2, Hf by exact Hh.
    destruct (failure (Reload T (tb s) (tasker s))); reflexivity.
Qed.

(** ** Channel tasks *)

(** The value that the helper of the loop has received and the loop has
    not yet handed to [Schedule]. *)
Definition pending (s : State B) : list value :=
  match routine s, helper s, nap s with
  | LoopSelect, false, Some c => if done c then [Argument (tb s)] else []
  | _, _, _ => []
  end.

Lemma step_live s a s' :
  step T s a = Some s' ->
  (onceStop s = StopIdle -> retire s = None) ->
  (onceStop s = StopIdle -> routine s <> LoopExited) ->
  onceStop s' = StopIdle -> routine s' <> LoopExited.
Proof.
  intros H L1 L2. step_cases H a; simp_state; try assumption.
  all: intros Hi; try discriminate; try congruence.
  all: try (apply L2; assumption).
  all: pose proof (L1 Hi); congruence.
Qed.

Lemma pending_congr (s s' : State B) :
  routine s' = routine s -> helper s' = helper s -> nap s' = nap s ->
  Argument (tb s') = Argument (tb s) -> pending s' = pending s.
Proof. unfold pending. intros -> -> -> ->. reflexivity. Qed.

Lemma pending_busy (s : State B) : helper s = true -> pending s = [].
Proof. unfold pending. intros ->. destruct (routine s); reflexivity. Qed.

Lemma pending_away (s : State B) :
  routine s <> LoopSelect -> pending s = [].
Proof. unfold pending. destruct (routine s); congruence. Qed.

Lemma pending_open (s : State B) c :
  nap s = Some c -> err c = None -> pending s = [].
Proof.
  unfold pending, done. intros -> ->.
  destruct (routine s), (helper s); reflexivity.
Qed.

Lemma pending_done (s : State B) c :
  routine s = LoopSelect -> helper s = false -> nap s = Some c ->
  done c = true -> pending s = [Argument (tb s)].
Proof. unfold pending. intros -> -> -> ->. reflexivity. Qed.

(** What a channel task has handed to [Schedule], what its helper holds
    and what waits in the channel make up, in this order, what was sent. *)
Definition chan_order (first : list value) (s : State B) : Prop :=
  exists d, sched_args (trace s) ++ d ++ buf (chan s)
            = first ++ sent (chan s) /\ (length d <= 1)%nat /\
            (helper s = true -> d = []) /\
            (routine s <> LoopExited -> d = pending s).

Lemma step_chan_order first s a s' :
  step T s a = Some s' -> tType (tb s) = taskTypeOnChannel -> loop_inv s ->
  chan_order first s -> chan_order first s'.
Proof.
  unfold chan_order.
  intros H Ht [L1 L2 L3 L4 L5 L6 L7 L8 L9] (d & He & Hd & Hb & Hp).
  specialize (L6 ltac:(rewrite Ht; reflexivity)).
  specialize (L8 ltac:(rewrite Ht; reflexivity)).
  step_cases H a; simp_state;
    rewrite ?sched_args_app; cbn [sched_args omap]; rewrite ?app_nil_r.
  all: try (exists d; split; [exact He | split; [exact Hd | split; [exact Hb |]]];
            intros Hne; rewrite (Hp Hne); symmetry; apply pending_congr;
            reflexivity).
  all: try congruence.
  all: try (simp_hyps; congruence).
  all: try (split_andb;
            match goal with
            | Hx : bool_decide (_ = _) = true |- _ =>
                apply bool_decide_eq_true in Hx; congruence
            end).
  all: try match goal with
           | Hx : expire _ _ = Some _ |- _ =>
               unfold expire in Hx; rewrite (L8 _ eq_refl) in Hx; discriminate
           end.
  all: split_andb.
  - (* the head of the loop *)
    assert (Hd0 : d = []).
    { rewrite Hp by discriminate. apply pending_away. congruence. }
    exists d. repeat split; try assumption; intros _; rewrite Hd0;
      [reflexivity | symmetry; apply pending_busy; reflexivity].
  - (* the loop fires *)
    assert (Hh : helper s = false).
    { destruct (helper s) eqn:Hh; [| reflexivity].
      destruct (L7 eq_refl) as (_ & c' & Hc & Hn). simplify_eq.
      apply done_spec in H3 as (? & ?). congruence. }
    assert (Hd0 : d = [Argument (tb s)]).
    { rewrite Hp by discriminate. eapply pending_done; eauto. }
    exists []. rewrite Hd0 in He. split; [| split; [| split]].
    + rewrite <- He, <- !app_assoc. reflexivity.
    + cbn. lia.
    + reflexivity.
    + intros _. symmetry. apply pending_away. simp_state. discriminate.
  - (* the loop returns *)
    exists d. repeat split; try assumption. intros Hne. by destruct Hne.
  - (* the loop panics *)
    exists d. repeat split; try assumption. intros _.
    rewrite Hp by discriminate. symmetry. apply pending_congr; reflexivity.
  - (* the helper finds the channel closed *)
    destruct (L7 ltac:(assumption)) as (_ & c' & Hc & Hn).
    assert (Hd0 : d = []) by auto.
    exists d. repeat split; try assumption; try congruence.
    intros _. rewrite Hd0. symmetry. eapply pending_open; eauto.
  - (* the helper receives a value *)
    destruct (L7 ltac:(assumption)) as (_ & c' & Hc & Hn).
    assert (Hd0 : d = []) by auto. rewrite Hd0 in He.
    exists [v]. split; [exact He | split; [cbn; lia | split]].
    + discriminate.
    + intros Hne. symmetry.
      match goal with
      | |- pending ?s1 = _ =>
          change [v] with [Argument (tb s1)]; apply (pending_done s1 (cancel c'))
      end.
      * simp_state. destruct (routine s) eqn:Hr; try reflexivity.
        -- destruct (L2 eq_refl) as (? & _). congruence.
        -- specialize (L3 eq_refl). congruence.
        -- by destruct Hne.
      * reflexivity.
      * unfold cancel_nap. simp_state. rewrite Hc. reflexivity.
      * apply done_cancel.
  - (* a value is sent *)
    exists d. split; [| split; [exact Hd | split; [exact Hb |]]].
    + by rewrite !app_assoc, <- (app_assoc _ d), He.
    + intros Hne. rewrite (Hp Hne). symmetry. apply pending_congr; reflexivity.
Qed.

Lemma step_chan_closed s a s' :
  step T s a = Some s' -> tType (tb s) = taskTypeOnChannel ->
  loop_inv s -> task_inv s ->
  (onceStop s = StopIdle -> routine s <> LoopExited) ->
  (onceStop s = StopIdle -> Died s = true ->
   routine s = LoopSelect /\ helper s = false /\ buf (chan s) = [] /\
   closed (chan s) = true /\ exists c, nap s = Some c /\ err c = None) ->
  onceStop s' = StopIdle -> Died s' = true ->
  routine s' = LoopSelect /\ helper s' = false /\ buf (chan s') = [] /\
  closed (chan s') = true /\ exists c, nap s' = Some c /\ err c = None.
Proof.
  unfold Died.
  intros H Ht [L1 L2 L3 L4 L5 L6 L7 L8 L9] [I1 _ _ _ _ _ _] Hl Hc.
  specialize (L6 ltac:(rewrite Ht; reflexivity)).
  specialize (L8 ltac:(rewrite Ht; reflexivity)).
  step_cases H a; simp_state; try assumption.
  all: intros Hi Hd; try discriminate; try congruence.
  all: try (simp_hyps; congruence).
  all: try match goal with
           | Hx : expire _ _ = Some _ |- _ =>
               unfold expire in Hx; rewrite (L8 _ eq_refl) in Hx; discriminate
           end.
  all: try (pose proof (I1 Hi); discriminate).
  all: split_andb.
  all: try (destruct (Hc Hi Hd) as (Hr & Hh & Hb & Hcl & c' & Hn & He);
            first [ congruence
                  | simplify_eq;
                    match goal with
                    | Hx : done _ = true |- _ =>
                        apply done_spec in Hx as (? & ?); congruence
                    end
                  | repeat split; try assumption; eauto ]).
  (* the helper finds the channel closed *)
  destruct (L7 ltac:(assumption)) as (_ & c' & Hn & He).
  repeat split; try assumption; eauto.
  destruct (routine s) eqn:Hr; try reflexivity.
  - destruct (L2 eq_refl) as (? & _). congruence.
  - specialize (L3 eq_refl). congruence.
  - by destruct (Hl Hi).
Qed.

Lemma pending_nonap (s : State B) : nap s = None -> pending s = [].
Proof.
  unfold pending. intros ->. destruct (routine s), (helper s); reflexivity.
Qed.

(** [start()] of a channel task that is alive: nothing to initialise. *)
Lemma start_channel w (s : State B) :
  tType (tb s) = taskTypeOnChannel -> Died s = false ->
  let s' := (start T w s).1 in
  life s' = life s /\
  sched_args (trace s')
  = sched_args (trace s)
    ++ (if Immediately (tb s) && negb (Sleep (tb s))
        then [Argument (tb s)] else []).
Proof.
  intros Ht Hd. unfold start, start_run, first_fire. rewrite Hd, Ht.
  destruct (Immediately (tb s) && negb (Sleep (tb s))); simp_state;
    rewrite <- ?app_assoc, sched_args_app; cbn [sched_args omap app];
    rewrite ?app_nil_r; split; reflexivity.
Qed.

Lemma newTask_channel b tb0 w :
  tType tb0 = taskTypeOnChannel ->
  let s0 := newTask T b tb0 w in
  Died s0 = false /\
  (length (sched_args (trace s0)) <= 1)%nat /\
  (Immediately tb0 = false -> sched_args (trace s0) = []).
Proof.
  intros Ht. cbv zeta. rewrite newTask_unfold.
  destruct (failure (Reload T tb0 b)) as [e |].
  { simp_state. cbn. repeat split. lia. }
  pose proof (start_channel w (reloaded b tb0 w)) as Hs.
  change (tType (tb (reloaded b tb0 w))) with (tType tb0) in Hs.
  change (Died (reloaded b tb0 w)) with false in Hs.
  change (life (reloaded b tb0 w)) with WithCancel in Hs.
  change (trace (reloaded b tb0 w)) with [EvReload] in Hs.
  change (Immediately (tb (reloaded b tb0 w))) with (Immediately tb0) in Hs.
  change (Argument (tb (reloaded b tb0 w))) with (Argument tb0) in Hs.
  specialize (Hs Ht eq_refl). cbv zeta in Hs.
  generalize dependent (start T w (reloaded b tb0 w)).
  intros r (Hl & Hsch).
  assert (Hx : Died r.1 = false /\
               (length (sched_args (trace r.1)) <= 1)%nat /\
               (Immediately tb0 = false -> sched_args (trace r.1) = [])).
  { unfold Died. rewrite Hl, Hsch. split; [reflexivity |]. split.
    - destruct (_ && _); cbn; lia.
    - intros ->. reflexivity. }
  destruct (bool_decide _); [| exact Hx].
  unfold Died in *. simp_state. rewrite sched_args_app. cbn [sched_args omap].
  rewrite app_nil_r. exact Hx.
Qed.

(** What holds of a channel task from [newTask] on. *)
Record chan_inv (first : list value) (s : State B) : Prop := {
  cinv_type : tType (tb s) = taskTypeOnChannel;
  cinv_loop : loop_inv s;
  cinv_task : task_inv s;
  cinv_live : onceStop s = StopIdle -> routine s <> LoopExited;
  cinv_order : chan_order first s;
  cinv_closed :
    onceStop s = StopIdle -> Died s = true ->
    routine s = LoopSelect /\ helper s = false /\ buf (chan s) = [] /\
    closed (chan s) = true /\ exists c, nap s = Some c /\ err c = None
}.

Lemma step_chan_inv first s a s' :
  chan_inv first s -> step T s a = Some s' -> chan_inv first s'.
Proof.
  intros [C1 C2 C3 C4 C5 C6] H. split.
  - destruct (step_type _ _ _ H) as (-> & _). exact C1.
  - eapply step_loop_inv; eassumption.
  - eapply step_task_inv; eassumption.
  - eapply step_live; try eassumption. apply (tinv_idle s C3).
  - eapply step_chan_order; eassumption.
  - eapply step_chan_closed; eassumption.
Qed.

Lemma newTask_chan_inv b tb0 w :
  tType tb0 = taskTypeOnChannel ->
  chan_inv (sched_args (trace (newTask T b tb0 w))) (newTask T b tb0 w).
Proof.
  intros Ht. pose proof (newTask_fresh b tb0 w) as Hf. cbv zeta in Hf.
  destruct Hf as (H1 & H2 & H3 & H4 & H5 & H6 & H7 & H8 & _).
  destruct (newTask_channel b tb0 w Ht) as (Hd & _).
  split.
  - congruence.
  - apply newTask_loop_inv.
  - apply newTask_inv.
  - intros _. destruct (newTask_routine b tb0 w); congruence.
  - exists []. rewrite H6. cbn [buf sent app]. repeat split.
    + cbn. lia.
    + intros _. symmetry. by apply pending_nonap.
  - intros _ Hx. congruence.
Qed.

(** A channel task hands to [Schedule] the values sent on its channel, in
    the order in which they were sent, each one once and none before an
    earlier one; at most one value that its helper has received is not
    handed on (the one held when the task is stopped, or the one that the
    helper left behind takes afterwards). When the task has died without
    [Stop()], the channel is closed and every value sent has been handed
    to [Schedule]. The calls before the first value are those of
    [newTask]: at most one, and none unless the task starts immediately. *)
Theorem Channel_in_order b tb0 w acts (s : State B) :
  tType tb0 = taskTypeOnChannel ->
  run T (newTask T b tb0 w) acts = Some s ->
  let first := sched_args (trace (newTask T b tb0 w)) in
  (exists held,
     sched_args (trace s) ++ held ++ buf (chan s) = first ++ sent (chan s) /\
     (length held <= 1)%nat /\
     (routine s <> LoopExited -> held = pending s)) /\
  (onceStop s = StopIdle -> Died s = true ->
   closed (chan s) = true /\ sched_args (trace s) = first ++ sent (chan s)) /\
  (length first <= 1)%nat /\
  (Immediately tb0 = false -> first = []).
Proof.
  intros Ht Hr first.
  assert (Hi : chan_inv first s).
  { eapply (run_invariant (chan_inv first)); [| | exact Hr].
    - intros s1 a s2. apply step_chan_inv.
    - by apply newTask_chan_inv. }
  destruct Hi as [C1 C2 C3 C4 (d & He & Hd & Hb & Hp) C6].
  destruct (newTask_channel b tb0 w Ht) as (_ & Hf1 & Hf2).
  split; [| split; [| split; assumption]].
  - exists d. auto.
  - intros Hs Hdd.
    destruct (C6 Hs Hdd) as (Hro & Hh & Hbuf & Hcl & c & Hn & Hc).
    split; [exact Hcl |].
    rewrite Hp in He by congruence.
    rewrite (pending_open _ _ Hn Hc), Hbuf in He. by rewrite !app_nil_r in He.
Qed.

(** A channel task whose channel was closed while nobody called [Stop()]:
    the helper has ended the life of the task, the loop is at its
    [select], and its next step runs [Retire] and then calls [t.retired],
    which is nil: the process panics. *)
Theorem Channel_close_panics b tb0 w acts (s : State B) :
  tType tb0 = taskTypeOnChannel ->
  run T (newTask T b tb0 w) acts = Some s ->
  halted s = None -> onceStop s = StopIdle -> Died s = true ->
  step T s LoopRetire = Some (panic (call_Retire T s).1) /\
  step T s LoopDerive = None /\ step T s LoopSchedule = None /\
  step T s HelperRecv = None.
Proof.
  intros Ht Hr Hh Hs Hd.
  assert (Hi : chan_inv (sched_args (trace (newTask T b tb0 w))) s).
  { eapply (run_invariant (chan_inv _)); [| | exact Hr].
    - intros s1 a s2. apply step_chan_inv.
    - by apply newTask_chan_inv. }
  destruct Hi as [C1 C2 C3 C4 _ C6].
  destruct (C6 Hs Hd) as (Hro & Hhe & Hbuf & Hcl & c & Hn & Hc).
  pose proof (tinv_idle s C3 Hs) as Hre.
  unfold step, loop_retire, loop_derive, loop_schedule, helper_recv.
  rewrite bool_decide_eq_true_2, Hro, Hd, Hre, Hn, Hhe by exact Hh.
  unfold done. rewrite Hc. repeat split.
Qed.

(** ** How often the Tasker is called *)

(** The calls of [t.Reload()], of [t.Fire()], and the times the loop
    fires, in a run. *)
Definition count_action (a : action) (acts : list action) : nat :=
  length (filter (fun x => x = a) acts).

Lemma count_action_same a : count_action a [a] = 1%nat.
Proof. unfold count_action. by rewrite filter_cons_True. Qed.

Lemma count_action_other a x : x <> a -> count_action a [x] = 0%nat.
Proof. intros H. unfold count_action. by rewrite filter_cons_False. Qed.

Lemma step_reload_count s a s' :
  step T s a = Some s' ->
  count_event EvReload (trace s')
  = (count_event EvReload (trace s) + count_action CallReload [a])%nat.
Proof.
  intros H. destruct (decide (a = CallReload)) as [-> | Hn].
  - rewrite count_action_same.
    unfold step in H. destruct (bool_decide _); [| discriminate].
    injection H as <-. unfold Task_Reload, wake.
    repeat case_match; simp_state; rewrite <- ?app_assoc;
      rewrite count_event_app; reflexivity.
  - rewrite (extends_count EvReload (step_event a) s s');
      [| intros e (_ & He & _); by apply He | by apply step_extends].
    rewrite count_action_other by exact Hn. lia.
Qed.

Lemma step_sched_count s a s' :
  step T s a = Some s' ->
  (length (sched_args (trace s'))
   <= length (sched_args (trace s))
      + count_action CallFire [a] + count_action LoopSchedule [a])%nat.
Proof.
  intros H. destruct (decide (a = CallFire)) as [-> | Hf].
  - rewrite count_action_same.
    unfold step in H. destruct (bool_decide _); [| discriminate].
    injection H as <-. unfold Fire, wake.
    repeat case_match; simp_state; rewrite <- ?app_assoc;
      rewrite ?sched_args_app, ?length_app; cbn -[count_action]; lia.
  - destruct (decide (a = LoopSchedule)) as [-> | Hl].
    + rewrite count_action_same.
      unfold step, loop_schedule, loop_fire in H.
      repeat (first [ progress simplify_eq | case_match ]); simp_state;
        rewrite ?sched_args_app, ?length_app; cbn -[count_action]; lia.
    + rewrite (step_sched_args _ _ _ H Hf Hl). lia.
Qed.

Lemma start_sched_count w (s : State B) :
  (length (sched_args (trace (start T w s).1))
   <= length (sched_args (trace s)) + 1)%nat.
Proof.
  unfold start, start_run, first_fire.
  repeat case_match; simp_state; rewrite <- ?app_assoc;
    rewrite ?sched_args_app, ?length_app; cbn; lia.
Qed.

Lemma count_action_cons a x acts :
  count_action a (x :: acts)
  = (count_action a [x] + count_action a acts)%nat.
Proof.
  unfold count_action. change (x :: acts) with ([x] ++ acts).
  rewrite filter_app, length_app. reflexivity.
Qed.

Lemma newTask_counts b tb0 w :
  count_event EvReload (trace (newTask T b tb0 w)) = 1%nat /\
  (length (sched_args (trace (newTask T b tb0 w))) <= 1)%nat.
Proof.
  split.
  - pose proof (newTask_fresh b tb0 w) as Hf. cbv zeta in Hf.
    destruct Hf as (_ & _ & _ & _ & _ & _ & _ & _ & evs & -> & Hev).
    change (EvReload :: evs) with ([EvReload] ++ evs).
    rewrite count_event_app, (count_event_absent EvReload evs); [reflexivity |].
    eapply Forall_impl; [exact Hev |]. by intros e [He _].
  - rewrite newTask_unfold.
    destruct (failure (Reload T tb0 b)) as [e |].
    { simp_state. cbn. lia. }
    pose proof (start_sched_count w (reloaded b tb0 w)) as Hs.
    change (trace (reloaded b tb0 w)) with [EvReload] in Hs.
    generalize dependent (start T w (reloaded b tb0 w)). intros r Hs.
    cbn in Hs. destruct (bool_decide _); simp_state;
      rewrite ?sched_args_app, ?length_app; cbn; lia.
Qed.

(** The Tasker's [Reload] runs once when the task is made and then once
    in every [t.Reload()], and nowhere else; its [Schedule] runs at most
    once when the task is made, and then at most once in every
    [t.Fire()] and every time the loop fires, and nowhere else. *)
Theorem Tasker_calls_counted b tb0 w acts (s : State B) :
  run T (newTask T b tb0 w) acts = Some s ->
  count_event EvReload (trace s) = S (count_action CallReload acts) /\
  (length (sched_args (trace s))
   <= 1 + count_action CallFire acts + count_action LoopSchedule acts)%nat.
Proof.
  destruct (newTask_counts b tb0 w) as (H1 & H2). revert H1 H2.
  generalize (newTask T b tb0 w). intros s0 H1 H2 Hr.
  assert (Hg : forall n m,
             count_event EvReload (trace s0) = n ->
             (length (sched_args (trace s0)) <= m)%nat ->
             count_event EvReload (trace s)
             = (n + count_action CallReload acts)%nat /\
             (length (sched_args (trace s))
              <= m + count_action CallFire acts
                 + count_action LoopSchedule acts)%nat).
  { clear H1 H2. revert s0 Hr.
    induction acts as [| a acts IH]; intros s0 Hr n m H1 H2.
    - cbn in Hr. injection Hr as <-. unfold count_action. cbn. lia.
    - cbn in Hr. destruct (step T s0 a) as [s1 |] eqn:Hs; [| discriminate].
      pose proof (step_reload_count _ _ _ Hs) as Hc.
      pose proof (step_sched_count _ _ _ Hs) as Hl.
      destruct (IH s1 Hr _ _ eq_refl (Nat.le_refl _)) as (I1 & I2).
      rewrite !(count_action_cons _ a acts). lia. }
  destruct (Hg 1%nat 1%nat H1 H2) as (G1 & G2). split; [exact G1 | exact G2].
Qed.

(** ** One-shot tasks *)

Lemma step_noloop s a s' :
  step T s a = Some s' -> routine s = NoLoop -> routine s' = NoLoop.
Proof. intros H Hr. step_cases H a; simp_state; congruence. Qed.

Lemma step_dead_sched s a s' :
  step T s a = Some s' -> Died s = true -> routine s = NoLoop ->
  sched_args (trace s') = sched_args (trace s).
Proof.
  intros H Hd Hr. destruct (decide (a = CallFire)) as [-> | Hf].
  - unfold step, Fire in H. rewrite Hd in H.
    destruct (bool_decide _); [| discriminate]. injection H as <-.
    simp_state. rewrite sched_args_app. cbn. by rewrite app_nil_r.
  - by apply (step_noloop_sched _ _ _ H).
Qed.

Lemma start_onetime w (s : State B) :
  tType (tb s) = taskTypeOnetime -> Died s = false ->
  let s' := (start T w s).1 in
  Died s' = true /\ routine s' = routine s /\
  retireFuncs s' = retireFuncs s /\ reloadFuncs s' = reloadFuncs s /\
  trace s' = trace s ++ [EvSchedule (Argument (tb s)) LifeCtx; EvDie] /\
  (start T w s).2 = failure (Schedule T (tb s) (tasker s)) /\
  halted s' = halted s.
Proof.
  intros Ht Hd. unfold start. rewrite Hd, Ht. unfold Died. simp_state.
  rewrite <- app_assoc. repeat split. apply done_cancel.
Qed.

(** A one-shot task runs [Schedule] exactly once, inside [newTask], on
    its life context, and [newTask] returns the error of that call; the
    task has then died, has no goroutine and is in no registry, and
    nothing that is done with it later runs [Schedule] again. When
    [Reload] fails [Schedule] never runs. *)
Theorem Onetime_runs_once b tb0 w acts (s : State B) :
  tType tb0 = taskTypeOnetime ->
  run T (newTask T b tb0 w) acts = Some s ->
  routine s = NoLoop /\
  match failure (Reload T tb0 b) with
  | Some _ => sched_args (trace s) = [] /\ acts = []
  | None =>
      sched_args (trace s) = [Argument tb0] /\ Died s = true /\
      trace (newTask T b tb0 w)
      = [EvReload; EvSchedule (Argument tb0) LifeCtx; EvDie;
         EvReturn CNewTask
           (failure (Schedule T (tb (reloaded b tb0 w))
                       (next (Reload T tb0 b))))] /\
      retireFuncs (newTask T b tb0 w) = env_retireFuncs w /\
      reloadFuncs (newTask T b tb0 w) = env_reloadFuncs w
  end.
Proof.
  intros Ht Hr.
  assert (Hty : tType (tb s) = taskTypeOnetime).
  { pose proof (newTask_fresh b tb0 w) as Hf. cbv zeta in Hf.
    destruct Hf as (_ & _ & _ & _ & _ & _ & _ & H8 & _).
    rewrite <- Ht, <- H8.
    eapply (run_invariant
              (fun x => tType (tb x) = tType (tb (newTask T b tb0 w))));
      [| reflexivity | exact Hr].
    intros s1 a s2 Hi Hs. destruct (step_type _ _ _ Hs) as (-> & _).
    exact Hi. }
  assert (Hre : reachable s) by (exists b, tb0, w, acts; exact Hr).
  split.
  { apply (linv_noloop s (reachable_loop_inv s Hre)). by rewrite Hty. }
  revert Hr. rewrite newTask_unfold.
  destruct (failure (Reload T tb0 b)) as [e |].
  { destruct acts as [| a acts]; cbn.
    - intros [= <-]. split; reflexivity.
    - unfold step. simp_state. cbn. discriminate. }
  pose proof (start_onetime w (reloaded b tb0 w)) as Hs.
  change (tType (tb (reloaded b tb0 w))) with (tType tb0) in Hs.
  change (Died (reloaded b tb0 w)) with false in Hs.
  change (routine (reloaded b tb0 w)) with NoLoop in Hs.
  change (trace (reloaded b tb0 w)) with [EvReload] in Hs.
  change (retireFuncs (reloaded b tb0 w)) with (env_retireFuncs w) in Hs.
  change (reloadFuncs (reloaded b tb0 w)) with (env_reloadFuncs w) in Hs.
  change (Argument (tb (reloaded b tb0 w))) with (Argument tb0) in Hs.
  change (tasker (reloaded b tb0 w)) with (next (Reload T tb0 b)) in Hs.
  change (halted (reloaded b tb0 w)) with (@None halt) in Hs.
  specialize (Hs Ht eq_refl). cbv zeta in Hs.
  generalize dependent (start T w (reloaded b tb0 w)).
  intros r (Hd & Hro & Hrf & Hlf & Htr & Hres & Hha).
  set (s0 := if bool_decide (halted r.1 = None)
             then emit [EvReturn CNewTask r.2] r.1 else r.1).
  intros Hr.
  assert (H0 : Died s0 = true /\ routine s0 = NoLoop /\
               sched_args (trace s0) = [Argument tb0]).
  { unfold s0, Died in *. destruct (bool_decide _); simp_state;
      rewrite ?sched_args_app, Htr; cbn [sched_args omap app];
      rewrite Hd, Hro; repeat split. }
  assert (Hinv : Died s = true /\ routine s = NoLoop /\
                 sched_args (trace s) = [Argument tb0]).
  { eapply (run_invariant
              (fun x => Died x = true /\ routine x = NoLoop /\
                        sched_args (trace x) = [Argument tb0]));
      [| exact H0 | exact Hr].
    intros s1 a s2 (I1 & I2 & I3) Hst. split; [| split].
    - eapply step_Died; eassumption.
    - eapply step_noloop; eassumption.
    - rewrite <- I3. eapply step_dead_sched; eassumption. }
  destruct Hinv as (I1 & _ & I3).
  split; [exact I3 |]. split; [exact I1 |].
  unfold s0. rewrite bool_decide_eq_true_2 by exact Hha.
  simp_state. rewrite Htr, Hres, Hrf, Hlf. repeat split.
Qed.

(** ** A listener that cannot be bound *)

Lemma start_nolisten w (s : State B) a0 :
  tType (tb s) = taskTypeOnTCP -> Argument (tb s) = VString a0 ->
  Died s = false -> listen_ok w = false ->
  let s' := (start T w s).1 in
  Died s' = true /\ routine s' = routine s /\ halted s' = halted s /\
  onceStop s' = onceStop s /\
  tType (tb s') = taskTypeOnTCP /\ Trigger (tb s') = VNil /\
  trace s' = trace s ++ [EvListen false; EvDie] /\
  (start T w s).2 = Some ListenError.
Proof.
  intros Ht Ha Hd Hl. unfold start. rewrite Hd, Ht, Ha, Hl. unfold Died.
  simp_state. rewrite <- app_assoc. repeat split; try assumption.
  apply done_cancel.
Qed.

(** When [net.Listen] fails, [newTask] returns its error and a task that
    has died, without goroutine, whose [Trigger] is nil; nothing has been
    scheduled, also for a task that starts immediately. The first
    [Stop()] on this task, whenever it comes, panics in the type assertion
    of its [defer] statement, after it has left the registries and made
    [t.retire]. *)
Theorem Listen_failure_Stop_panics b tb0 w a0 acts (s : State B) :
  tType tb0 = taskTypeOnTCP -> Argument tb0 = VString a0 ->
  failure (Reload T tb0 b) = None -> listen_ok w = false ->
  let s0 := newTask T b tb0 w in
  trace s0
  = [EvReload; EvListen false; EvDie; EvReturn CNewTask (Some ListenError)] /\
  Died s0 = true /\ routine s0 = NoLoop /\ halted s0 = None /\
  (run T s0 acts = Some s -> halted s = None -> onceStop s = StopIdle ->
   step T s CallStop
   = Some (panic (set_onceStop StopPanicked (stop_begin s)))).
Proof.
  intros Ht Ha Hf Hl. cbv zeta. rewrite newTask_unfold, Hf.
  pose proof (start_nolisten w (reloaded b tb0 w) a0) as Hs.
  change (tType (tb (reloaded b tb0 w))) with (tType tb0) in Hs.
  change (Argument (tb (reloaded b tb0 w))) with (Argument tb0) in Hs.
  change (Died (reloaded b tb0 w)) with false in Hs.
  change (routine (reloaded b tb0 w)) with NoLoop in Hs.
  change (halted (reloaded b tb0 w)) with (@None halt) in Hs.
  change (onceStop (reloaded b tb0 w)) with StopIdle in Hs.
  change (trace (reloaded b tb0 w)) with [EvReload] in Hs.
  specialize (Hs Ht Ha eq_refl Hl). cbv zeta in Hs.
  generalize dependent (start T w (reloaded b tb0 w)).
  intros r (Hd & Hro & Hh & Hos & Hty & Htr & Htc & Hres).
  rewrite bool_decide_eq_true_2 by exact Hh. unfold Died in *. simp_state.
  rewrite Htc, Hres. repeat split; try assumption.
  intros Hr Hhs His.
  assert (Hi : tType (tb s) = taskTypeOnTCP /\ Trigger (tb s) = VNil).
  { eapply (run_invariant
              (fun x => tType (tb x) = taskTypeOnTCP /\ Trigger (tb x) = VNil));
      [| | exact Hr].
    - intros s1 a s2 (I1 & I2) Hst.
      destruct (step_type _ _ _ Hst) as (-> & -> & _). auto.
    - simp_state. auto. }
  destruct Hi as (I1 & I2).
  unfold step, Stop, stop_enter, stop_defer.
  rewrite bool_decide_eq_true_2, His by exact Hhs. simp_state.
  rewrite I1, I2. reflexivity.
Qed.

(** ** The heartbeat of an interval task *)

Lemma step_argument s a s' :
  step T s a = Some s' -> has_helper (tType (tb s)) = false ->
  Argument (tb s') = Argument (tb s).
Proof.
  intros H Ht. step_cases H a; simp_state; try reflexivity; try congruence.
  all: split_andb;
    repeat match goal with
           | Hx : bool_decide (_ = _) = true |- _ =>
               apply bool_decide_eq_true in Hx
           end;
    type_facts; discriminate.
Qed.

(** The entry of the task in the liver while the loop waits at its
    [select] and [stop()] has not returned: made when the nap was, with
    four times the interval as its timeout, or none when the nap has no
    deadline (the task sleeps). *)
Definition beat (d : Z) (s : State B) : Prop :=
  routine s = LoopSelect ->
  onceStop s = StopIdle \/ (exists dd, onceStop s = StopWaiting dd) ->
  forall c, nap s = Some c ->
    liver s !! t_id s
    = match deadline c with
      | Some dl => Some (Some (Liver.Live (dl - d) (Duration_mul d 4)))
      | None => None
      end.

Lemma step_beat d s a s' :
  step T s a = Some s' ->
  tType (tb s) = taskTypeOnInterval -> Trigger (tb s) = VDuration d ->
  Argument (tb s) = VBool true ->
  beat d s -> beat d s'.
Proof.
  unfold beat. intros H Ht Htr Ha Hb.
  step_cases H a; simp_state; try assumption.
  all: intros Hr Ho c' Hc; try discriminate; try congruence.
  all: try (destruct Ho as [Ho | [dd Ho]]; discriminate).
  all: try (apply Hb; solve [ assumption | reflexivity | auto | eauto ]).
  all: try (destruct (nap _) as [c0 |] eqn:Hc0; [| discriminate];
            injection Hc as <-; rewrite deadline_cancel;
            apply Hb; solve [ assumption | reflexivity | auto | eauto ]).
  all: try match goal with
           | Hx : expire _ _ = Some _ |- _ =>
               apply expire_err in Hx as (_ & _ & Hx);
               injection Hc as <-; rewrite Hx;
               apply Hb; solve [ assumption | reflexivity | auto | eauto ]
           end.
  - destruct Ho as [Ho | [dd Ho]]; congruence.
  - injection Hc as <-. unfold Liver.Cancel. cbn [fst deadline WithCancel].
    apply lookup_delete_eq.
  - injection Hc as <-. unfold Liver.Register, WithTimeout. cbn [deadline].
    rewrite lookup_insert_eq. do 3 f_equal. lia.
Qed.

(** What holds of an interval task with a heartbeat from [newTask] on. *)
Record beat_inv (d : Z) (s : State B) : Prop := {
  binv_type : tType (tb s) = taskTypeOnInterval;
  binv_trigger : Trigger (tb s) = VDuration d;
  binv_argument : Argument (tb s) = VBool true;
  binv_beat : beat d s
}.

Lemma step_beat_inv d s a s' :
  beat_inv d s -> step T s a = Some s' -> beat_inv d s'.
Proof.
  intros [B1 B2 B3 B4] H.
  destruct (step_type _ _ _ H) as (Ht & Htr & _). split.
  - congruence.
  - congruence.
  - rewrite (step_argument _ _ _ H); [exact B3 |]. by rewrite B1.
  - eapply step_beat; eassumption.
Qed.

Lemma start_tb w (s : State B) :
  tType (tb s) = taskTypeOnInterval ->
  Trigger (tb (start T w s).1) = Trigger (tb s) /\
  Argument (tb (start T w s).1) = Argument (tb s).
Proof.
  intros Ht. unfold start, start_run, first_fire. rewrite Ht.
  repeat case_match; simp_state; split; reflexivity.
Qed.

Lemma newTask_beat_inv b tb0 w d :
  tType tb0 = taskTypeOnInterval -> Trigger tb0 = VDuration d ->
  Argument tb0 = VBool true -> beat_inv d (newTask T b tb0 w).
Proof.
  intros Ht Htr Ha.
  pose proof (newTask_fresh b tb0 w) as Hf. cbv zeta in Hf.
  destruct Hf as (_ & _ & _ & _ & _ & _ & _ & H8 & _).
  assert (Hb : beat d (newTask T b tb0 w)).
  { intros Hr. destruct (newTask_routine b tb0 w); congruence. }
  revert H8 Hb. rewrite newTask_unfold.
  destruct (failure (Reload T tb0 b)) as [e |].
  { intros H8 Hb. split; try exact Hb; simp_state; assumption. }
  pose proof (start_tb w (reloaded b tb0 w)) as Hs.
  change (tType (tb (reloaded b tb0 w))) with (tType tb0) in Hs.
  change (Trigger (tb (reloaded b tb0 w))) with (Trigger tb0) in Hs.
  change (Argument (tb (reloaded b tb0 w))) with (Argument tb0) in Hs.
  specialize (Hs Ht).
  generalize dependent (start T w (reloaded b tb0 w)). intros r (H1 & H2).
  destruct (bool_decide _); intros H8 Hb; split; try exact Hb; simp_state;
    simp_state_in H8; congruence.
Qed.

(** An interval task with a heartbeat (its [Argument] is [true]) whose
    loop waits at its [select]: when the nap has a deadline, the task is
    in the liver under its id with four times its interval as timeout,
    entered when the nap was made; when the nap has none (the task
    sleeps) the task is not in the liver. So the watchdog finds the task
    alive until the loop is more than three intervals late for the end
    of its nap. *)
Theorem Interval_heartbeat b tb0 w d acts (s : State B) c :
  tType tb0 = taskTypeOnInterval -> Trigger tb0 = VDuration d ->
  Argument tb0 = VBool true ->
  run T (newTask T b tb0 w) acts = Some s ->
  routine s = LoopSelect -> onceStop s = StopIdle -> nap s = Some c ->
  match deadline c with
  | Some dl =>
      liver s !! t_id s
      = Some (Some (Liver.Live (dl - d) (Duration_mul d 4))) /\
      (0 <= d -> d * 4 < 2 ^ 63 -> now s <= dl + 3 * d ->
       Liver.died (now s) (default None (liver s !! t_id s)) = false)
  | None => liver s !! t_id s = None
  end.
Proof.
  intros Ht Htr Ha Hr Hro Hos Hc.
  assert (Hi : beat_inv d s).
  { eapply (run_invariant (beat_inv d)); [| | exact Hr].
    - intros s1 a s2. apply step_beat_inv.
    - by apply newTask_beat_inv. }
  destruct Hi as [_ _ _ Hb].
  specialize (Hb Hro (or_introl Hos) c Hc).
  destruct (deadline c) as [dl |]; [| exact Hb].
  split; [exact Hb |]. intros Hd Ho Hn. rewrite Hb.
  unfold Liver.died, Duration_mul, int64. cbn [default Liver.timeout Liver.last].
  apply Z.ltb_ge.
  rewrite Z.mod_small by lia. cbn [Liver.last Liver.timeout]. lia.
Qed.



(** ** The registries *)








(** A state computed by a run from a new task is reachable. *)
Lemma reachable_after b tb0 w acts :
  is_Some (run T (newTask T b tb0 w) acts) ->
  reachable (Examples.after T (newTask T b tb0 w) acts).
Proof.
  intros [s Hs]. exists b, tb0, w, acts. unfold Examples.after.
  rewrite Hs. reflexivity.
Qed.

End TaskFacts.

(** ** The theorems on stopping at an accept task *)

Lemma Stop_after_return_witness :
  let s := Examples.after Examples.quiet
             (TaskCore.newTask Examples.quiet tt Examples.tcp_base
                Examples.env0)
             [TaskCore.LoopDerive; TaskCore.CallStop; TaskCore.LoopRetire;
              TaskCore.StopWake] in
  TaskCore.Died s = true /\
  TaskCore.step Examples.quiet s TaskCore.CallStop
  = Some (TaskCore.emit [TaskCore.EvReturn TaskCore.CStop None] s).
Proof.
  intros s.
  destruct (Stop_after_return Examples.quiet s) as (H1 & _ & _ & H2 & _).
  - apply reachable_after. vm_compute. eauto.
  - vm_compute. reflexivity.
  - vm_compute. reflexivity.
  - split; [exact H1 | exact H2].
Defined.


Lemma Stop_wait_and_return_witness :
  let s := Examples.after Examples.quiet
             (TaskCore.newTask Examples.quiet tt Examples.tcp_base
                Examples.env0)
             [TaskCore.LoopDerive; TaskCore.CallStop] in
  TaskCore.step Examples.quiet s TaskCore.CallStop = None /\
  TaskCore.step Examples.quiet s TaskCore.StopWake = None.
Proof.
  intros s.
  destruct (Stop_wait_and_return Examples.quiet s
              (Some TaskCore.CloseListener))
    as (c & dl & Hc & _ & _ & H1 & H2 & _).
  - apply reachable_after. vm_compute. eauto.
  - vm_compute. reflexivity.
  - vm_compute. reflexivity.
  - split; [exact H1 |]. apply H2.
    assert (Hr : TaskCore.retire s
                 = Some (WithTimeout 0 TaskCore.stopTimeout))
      by (vm_compute; reflexivity).
    rewrite Hr in Hc. injection Hc as <-. reflexivity.
Defined.

Lemma Stop_bounded_witness :
  let s := Examples.after Examples.quiet
             (TaskCore.newTask Examples.quiet tt Examples.tcp_base
                Examples.env0)
             [TaskCore.LoopDerive; TaskCore.CallStop] in
  exists dt s2,
    0 <= dt <= 3 * Second /\
    (TaskCore.run Examples.quiet s [TaskCore.StopWake] = Some s2 \/
     TaskCore.run Examples.quiet s
       [TaskCore.Tick dt; TaskCore.RetireExpire; TaskCore.StopWake]
     = Some s2) /\
    TaskCore.onceStop s2 = TaskCore.StopReturned /\
    TaskCore.halted s2 = None.
Proof.
  intros s.
  apply (Stop_bounded Examples.quiet s (Some TaskCore.CloseListener)).
  - apply reachable_after. vm_compute. eauto.
  - vm_compute. reflexivity.
  - vm_compute. reflexivity.
  - discriminate.
Defined.

(** ** The theorems on [Fire()] at a manual, a reload and an accept task *)

Lemma Schedule_only_in_Fire_witness :
  let s := Examples.after Examples.quiet
             (TaskCore.newTask Examples.quiet tt Examples.manual_base
                Examples.env0) [] in
  TaskCore.routine s = TaskCore.NoLoop /\
  TaskCore.sched_args
    (TaskCore.trace
       (Examples.after Examples.quiet s
          [TaskCore.CallReload; TaskCore.Tick 5; TaskCore.CallStop]))
  = TaskCore.sched_args (TaskCore.trace s).
Proof.
  intros s.
  destruct (Schedule_only_in_Fire Examples.quiet s) as (H1 & H2 & _).
  - apply reachable_after. vm_compute. eauto.
  - vm_compute. reflexivity.
  - split; [exact H1 |].
    apply (H2 [TaskCore.CallReload; TaskCore.Tick 5; TaskCore.CallStop]).
    + vm_compute. reflexivity.
    + rewrite !elem_of_cons, elem_of_nil.
      intros [? | [? | [? | []]]]; discriminate.
Defined.

Lemma Fire_wakes_loop_witness :
  let s := Examples.after Examples.quiet
             (TaskCore.newTask Examples.quiet tt Examples.reload_base
                Examples.env0) [TaskCore.LoopDerive] in
  exists s1 s2,
    TaskCore.step Examples.quiet s TaskCore.CallFire = Some s1 /\
    TaskCore.step Examples.quiet s1 TaskCore.LoopSchedule = Some s2 /\
    TaskCore.routine s2 = TaskCore.LoopTop.
Proof.
  intros s.
  destruct (Fire_wakes_loop Examples.quiet s)
    as (s1 & c & H1 & _ & _ & _ & H2).
  - apply reachable_after. vm_compute. eauto.
  - vm_compute. reflexivity.
  - vm_compute. reflexivity.
  - vm_compute. reflexivity.
  - vm_compute. reflexivity.
  - destruct H2 as (s2 & H2 & _ & H3); [vm_compute; reflexivity |].
    exists s1, s2. auto.
Defined.

Lemma Fire_idle_with_helper_witness :
  let s := Examples.after Examples.quiet
             (TaskCore.newTask Examples.quiet tt Examples.tcp_base
                Examples.env0) [TaskCore.LoopDerive] in
  TaskCore.step Examples.quiet s TaskCore.CallFire
  = Some (TaskCore.emit [TaskCore.EvReturn TaskCore.CFire None] s).
Proof.
  intros s.
  destruct (Fire_idle_with_helper Examples.quiet s) as (H1 & _).
  - apply reachable_after. vm_compute. eauto.
  - vm_compute. reflexivity.
  - vm_compute. reflexivity.
  - apply H1. vm_compute. reflexivity.
Defined.

(** ** The theorems on channel tasks: two values, then the channel is
    closed *)

Lemma Channel_in_order_witness :
  let acts := [TaskCore.ChanSend (TaskCore.VData 7);
               TaskCore.ChanSend (TaskCore.VData 8);
               TaskCore.LoopDerive; TaskCore.HelperRecv;
               TaskCore.LoopSchedule; TaskCore.LoopDerive;
               TaskCore.HelperRecv; TaskCore.LoopSchedule;
               TaskCore.ChanClose; TaskCore.LoopDerive;
               TaskCore.HelperRecv] in
  let s := Examples.after Examples.quiet
             (TaskCore.newTask Examples.quiet tt Examples.chan_base
                Examples.env0) acts in
  TaskCore.sched_args (TaskCore.trace s)
  = [] ++ TaskCore.sent (TaskCore.chan s) /\
  TaskCore.sent (TaskCore.chan s) = [TaskCore.VData 7; TaskCore.VData 8].
Proof.
  intros acts s.
  destruct (Channel_in_order Examples.quiet tt Examples.chan_base
              Examples.env0 acts s) as (_ & H2 & _ & H4).
  - vm_compute. reflexivity.
  - vm_compute. reflexivity.
  - destruct H2 as (_ & H2); [vm_compute; reflexivity .. |].
    rewrite H4 in H2 by (vm_compute; reflexivity).
    split; [exact H2 | vm_compute; reflexivity].
Defined.

Lemma Channel_close_panics_witness :
  let acts := [TaskCore.LoopDerive; TaskCore.ChanClose;
               TaskCore.HelperRecv] in
  let s := Examples.after Examples.quiet
             (TaskCore.newTask Examples.quiet tt Examples.chan_base
                Examples.env0) acts in
  exists s', TaskCore.step Examples.quiet s TaskCore.LoopRetire = Some s' /\
             TaskCore.halted s' = Some TaskCore.Panic.
Proof.
  intros acts s.
  destruct (Channel_close_panics Examples.quiet tt Examples.chan_base
              Examples.env0 acts s) as (H1 & _).
  - vm_compute. reflexivity.
  - vm_compute. reflexivity.
  - vm_compute. reflexivity.
  - vm_compute. reflexivity.
  - vm_compute. reflexivity.
  - eexists. split; [exact H1 | reflexivity].
Defined.

(** ** The calls of the Tasker of a reload task *)

Lemma Tasker_calls_counted_witness :
  let acts := [TaskCore.LoopDerive; TaskCore.CallReload;
               TaskCore.LoopSchedule; TaskCore.LoopDerive;
               TaskCore.CallFire; TaskCore.LoopSchedule] in
  let s := Examples.after Examples.quiet
             (TaskCore.newTask Examples.quiet tt Examples.reload_base
                Examples.env0) acts in
  TaskCore.count_event TaskCore.EvReload (TaskCore.trace s) = 2%nat /\
  (length (TaskCore.sched_args (TaskCore.trace s)) <= 4)%nat.
Proof.
  intros acts s.
  destruct (Tasker_calls_counted Examples.quiet tt Examples.reload_base
              Examples.env0 acts s) as (H1 & H2).
  - vm_compute. reflexivity.
  - split; [exact H1 | exact H2].
Defined.

(** ** A one-shot task, and an accept task whose port is taken *)

Lemma Onetime_runs_once_witness :
  let acts := [TaskCore.CallFire; TaskCore.CallStop] in
  let s := Examples.after Examples.quiet
             (TaskCore.newTask Examples.quiet tt Examples.onetime_base
                Examples.env0) acts in
  TaskCore.routine s = TaskCore.NoLoop /\
  TaskCore.sched_args (TaskCore.trace s) = [TaskCore.VNil] /\
  TaskCore.Died s = true.
Proof.
  intros acts s.
  destruct (Onetime_runs_once Examples.quiet tt Examples.onetime_base
              Examples.env0 acts s) as (H1 & H2 & H3 & _).
  - reflexivity.
  - vm_compute. reflexivity.
  - split; [exact H1 |]. split; [exact H2 | exact H3].
Defined.

Lemma Listen_failure_Stop_panics_witness :
  let acts := [TaskCore.CallFire; TaskCore.Tick 1] in
  let s0 := TaskCore.newTask Examples.quiet tt Examples.tcp_base
              Examples.env_nolisten in
  let s := Examples.after Examples.quiet s0 acts in
  TaskCore.Died s0 = true /\
  exists s1, TaskCore.step Examples.quiet s TaskCore.CallStop = Some s1 /\
             TaskCore.halted s1 = Some TaskCore.Panic.
Proof.
  intros acts s0 s.
  destruct (Listen_failure_Stop_panics Examples.quiet tt Examples.tcp_base
              Examples.env_nolisten ":80" acts s)
    as (_ & H2 & _ & _ & H5).
  - reflexivity.
  - reflexivity.
  - reflexivity.
  - reflexivity.
  - split; [exact H2 |]. eexists. split.
    + apply H5; vm_compute; reflexivity.
    + reflexivity.
Defined.

(** ** The heartbeat of an interval task of twenty seconds, and the
    registries of an accept task *)

Lemma Interval_heartbeat_witness :
  let acts := [TaskCore.LoopDerive; TaskCore.Tick (30 * Second)] in
  let s := Examples.after Examples.quiet
             (TaskCore.newTask Examples.quiet tt Examples.interval_base
                Examples.env0) acts in
  TaskCore.liver s !! TaskCore.t_id s
  = Some (Some (Liver.Live 0 (80 * Second))) /\
  Liver.died (TaskCore.now s)
    (default None (TaskCore.liver s !! TaskCore.t_id s)) = false.
Proof.
  intros acts s.
  pose proof (Interval_heartbeat Examples.quiet tt Examples.interval_base
                Examples.env0 (20 * Second) acts s
                (WithTimeout 0 (20 * Second))) as H.
  cbn [deadline WithTimeout] in H.
  destruct H as (H1 & H2).
  - reflexivity.
  - reflexivity.
  - reflexivity.
  - vm_compute. reflexivity.
  - vm_compute. reflexivity.
  - vm_compute. reflexivity.
  - vm_compute. reflexivity.
  - split.
    + rewrite H1. vm_compute. reflexivity.
    + apply H2; vm_compute; congruence.
Defined.

